(** * remark-lint: five lint rules over a Markdown syntax tree

    Shallow embedding of

    - [packages/remark-lint-code-block-style/index.js]
    - [packages/remark-lint-blockquote-indentation/index.js]
    - [packages/remark-lint-maximum-heading-length/index.js]
    - [packages/remark-lint-no-duplicate-headings/index.js]
    - [packages/remark-lint-checkbox-content-indent/index.js]

    Every rule is a function of [(tree, file, option)] that walks the tree
    with [visit] and reports through [file.message] / [file.fail].  The
    closure variable a visitor assigns ([preferred], [map]) is passed
    explicitly; the reporter is a writer over [VFileMessage] with an
    exception for [file.fail].

    Conventions.  The numbers of a tree are counts, so integers ([Z]):
    lines, columns, offsets and lengths.  A number given as the option
    is a [Number]: an integer, an infinity or [NaN].  A string is a
    sequence of code units below 256, one [ascii] each; its upper-case
    form, which may leave that range, is a list of code units.  [null]
    and [undefined] are [None]. *)

From Stdlib Require Import ZArith Ascii String List Lia Bool.
From stdpp Require Import base option list strings gmap pretty sorting.

Local Open Scope Z_scope.

(* ================================================================== *)
(** * JavaScript primitives *)
(* ================================================================== *)

(** [ToNumber] on a number-or-null: [null] counts as [0] in arithmetic
    and comparisons. *)
Definition to_number (x : option Z) : Z := default 0 x.

(** Truthiness of a number-or-null, and of a string-or-null. *)
Definition truthy_number (x : option Z) : bool :=
  match x with Some z => negb (z =? 0) | None => false end.

Definition truthy_string (x : option string) : bool :=
  match x with Some s => negb (String.eqb s "") | None => false end.

(** [String(x)] on a string-or-null, as in a concatenation or a property
    key: [null] gives the four letters [null]. *)
Definition string_of (x : option string) : string := default "null" x.

(** [x !== s] for a string-or-null [x] and a string [s]. *)
Definition differs (x : option string) (s : string) : bool :=
  match x with Some p => negb (String.eqb p s) | None => true end.

(** [x || null] on a number-or-null. *)
Definition or_null (x : option Z) : option Z :=
  if truthy_number x then x else None.

(** [String.prototype.slice(from, to)]: negative indices count from the
    end, everything is clamped to the string. *)
Definition slice (s : string) (from to : Z) : string :=
  let len := Z.of_nat (String.length s) in
  let k := if from <? 0 then Z.max (len + from) 0 else Z.min from len in
  let e := if to <? 0 then Z.max (len + to) 0 else Z.min to len in
  String.substring (Z.to_nat k) (Z.to_nat (Z.max (e - k) 0)) s.

(** The suffix of [s] from index [i] on: what [s.charAt(i)],
    [s.charAt(i + 1)], ... read. *)
Definition from_index (s : string) (i : Z) : string :=
  if i <? 0 then EmptyString
  else String.substring (Z.to_nat i) (String.length s - Z.to_nat i)%nat s.

Definition code_of (c : ascii) : Z := Z.of_nat (nat_of_ascii c).

(** The class [\s], on code units below 256. *)
Definition is_space (c : ascii) : bool :=
  let n := code_of c in
  ((9 <=? n) && (n <=? 13)) || (n =? 32) || (n =? 160).

(** The class [[\t ]]. *)
Definition is_blank (c : ascii) : bool :=
  let n := code_of c in
  (n =? 9) || (n =? 32).

(** A string as the list of its code units. *)
Fixpoint units (s : string) : list Z :=
  match s with
  | EmptyString => []
  | String c r => code_of c :: units r
  end.
Coercion units : string >-> list.

(** [String.prototype.toUpperCase] on one code unit below 256: the
    letters [a]..[z] and the accented small letters [U+00E0]..[U+00FE]
    (but the division sign [U+00F7]) move down by 32; the micro sign
    [U+00B5] becomes the Greek capital mu [U+039C], the sharp s
    [U+00DF] the two letters [SS], the y with diaeresis [U+00FF] its
    capital [U+0178]; every other code unit is kept. *)
Definition upper_units (c : ascii) : list Z :=
  let n := code_of c in
  if (97 <=? n) && (n <=? 122) then [n - 32]
  else if n =? 181 then [924]
  else if n =? 223 then [83; 83]
  else if (224 <=? n) && (n <=? 254) && negb (n =? 247) then [n - 32]
  else if n =? 255 then [376]
  else [n].

Fixpoint toUpperCase (s : string) : list Z :=
  match s with
  | EmptyString => []
  | String c r => upper_units c ++ toUpperCase r
  end.

(** A number as an option holds it: an integer, [Infinity] or
    [-Infinity], or [NaN].  Numbers with a fractional part are left
    out: the text of a diagnostic would hold a binary64 value printed
    in decimal. *)
Inductive Number : Type :=
| Integer (z : Z)
| Infinity (negative : bool)
| NaN.
Coercion Integer : Z >-> Number.

(** Truthiness of a number-or-null: [null], [0] and [NaN] are falsy. *)
Definition truthy (x : option Number) : bool :=
  match x with
  | Some (Integer z) => negb (z =? 0)
  | Some (Infinity _) => true
  | Some NaN | None => false
  end.

(** [ToNumber] on a number-or-null. *)
Definition number_of (x : option Number) : Number := default (Integer 0) x.

(** [x - k], [x !== 0], [x > 0], [Math.abs(x)] and [k > x] for a
    number [x] and an integer [k]. *)
Definition minus (x : Number) (k : Z) : Number :=
  match x with
  | Integer z => Integer (z - k)
  | Infinity negative => Infinity negative
  | NaN => NaN
  end.

Definition is_not_zero (x : Number) : bool :=
  match x with Integer z => negb (z =? 0) | _ => true end.

Definition is_positive (x : Number) : bool :=
  match x with
  | Integer z => 0 <? z
  | Infinity negative => negb negative
  | NaN => false
  end.

Definition abs (x : Number) : Number :=
  match x with
  | Integer z => Integer (Z.abs z)
  | Infinity _ => Infinity false
  | NaN => NaN
  end.

Definition exceeds (k : Z) (x : Number) : bool :=
  match x with
  | Integer z => z <? k
  | Infinity negative => negative
  | NaN => false
  end.

(** [String(x)] on a number. *)
Definition number_string (x : Number) : string :=
  match x with
  | Integer z => pretty z
  | Infinity false => "Infinity"
  | Infinity true => "-Infinity"
  | NaN => "NaN"
  end.

(* ================================================================== *)
(** * The syntax tree (unist / mdast) *)
(* ================================================================== *)

Record Point := mkPoint {
  line : option Z;
  column : option Z;
  offset : option Z
}.

Record Position := mkPosition {
  start : option Point;
  end_ : option Point
}.

(** A node carries the fields the five rules read: [type], [position]
    and [children] of every node, [value] of literals, [alt] of images,
    [lang] of [code], [checked] of [listItem]. *)
Unset Elimination Schemes.
Inductive Node : Type := mkNode {
  type : string;
  position : option Position;
  children : list Node;
  value : option string;
  alt : option string;
  lang : option string;
  checked : option bool
}.
Set Elimination Schemes.

(** The option a rule is called with. *)
Inductive Setting : Type :=
| Absent
| OfString (s : string)
| OfNumber (n : Number)
| OfOther.

(** The file a rule receives; [String(file)] is [contents file]. *)
Record VFile := mkVFile { contents : string }.

(** What a message is attached to: a node, a [{start, end}] pair, a
    single point, or nothing. *)
Inductive Place : Type :=
| AtNode (node : Node)
| AtPosition (from to : Point)
| AtPoint (point : Point)
| Nowhere.

Record VFileMessage := mkMessage {
  reason : string;
  place : Place;
  fatal : bool
}.

(* ================================================================== *)
(** * The reporter: a writer with an exception *)
(* ================================================================== *)

(** The outcome of running rule code: it returns [a] having appended
    [messages], or [file.fail] threw after [messages] were appended. *)
Inductive Lint (A : Type) : Type :=
| Done (a : A) (messages : list VFileMessage)
| Thrown (messages : list VFileMessage).
Arguments Done {A} a messages.
Arguments Thrown {A} messages.

Definition ret {A} (a : A) : Lint A := Done a [].

Definition bind {A B} (m : Lint A) (k : A -> Lint B) : Lint B :=
  match m with
  | Done a ms =>
      match k a with
      | Done b ms' => Done b (ms ++ ms')
      | Thrown ms' => Thrown (ms ++ ms')
      end
  | Thrown ms => Thrown ms
  end.

Notation "'let*' x ':=' m 'in' k" := (bind m (fun x => k))
  (at level 10, x name, m at level 100, k at level 200, only parsing).
Notation "'do' m 'then' k" := (bind m (fun _ => k))
  (at level 10, m at level 100, k at level 200, only parsing).

(** Modelled from the spec: the Diagnostic Reporter (4.5) is the [VFile]
    the caller passes in, of package vfile.  [message(text, place)]
    appends a diagnostic in call order. *)
Definition message (text : string) (where_ : Place) : Lint unit :=
  Done tt [mkMessage text where_ false].

(** Modelled from the spec: [fail(text)] of the Diagnostic Reporter
    (4.5) appends a diagnostic marked fatal and stops the invocation. *)
Definition fail {A} (text : string) : Lint A :=
  Thrown [mkMessage text Nowhere true].

Definition messages_of {A} (m : Lint A) : list VFileMessage :=
  match m with Done _ ms => ms | Thrown ms => ms end.

(* ================================================================== *)
(** * The imported helpers *)
(* ================================================================== *)

(** Modelled from the spec: the Node Classifier (4.2), [generated] of
    package unist-util-generated.  A node is generated when it lacks a
    position, a start or an end, or when a line or column of either is
    missing or zero. *)
Definition generated (node : Node) : bool :=
  match position node with
  | None => true
  | Some p =>
      match start p, end_ p with
      | Some s, Some e =>
          negb (truthy_number (line s)) || negb (truthy_number (column s))
          || negb (truthy_number (line e)) || negb (truthy_number (column e))
      | _, _ => true
      end
  end.

(** [pointStart] and [pointEnd] of package unist-util-position: the
    point of a node that may be missing, with absent fields as [null]
    and an offset kept only when it is above [-1]. *)
Definition clean_point (p : option Point) : Point :=
  match p with
  | None => mkPoint None None None
  | Some p =>
      mkPoint (or_null (line p)) (or_null (column p))
        (match offset p with
         | Some o => if -1 <? o then Some o else None
         | None => None
         end)
  end.

Definition pointStart (node : option Node) : Point :=
  clean_point (n ← node; p ← position n; start p).

Definition pointEnd (node : option Node) : Point :=
  clean_point (n ← node; p ← position n; end_ p).

(** [stringifyPosition] of package unist-util-stringify-position, on a
    point: [line:column], a missing or zero part printed as [1]. *)
Definition index_or_1 (x : option Z) : Z :=
  if truthy_number x then to_number x else 1.

Definition stringifyPosition (p : Point) : string :=
  pretty (index_or_1 (line p)) +:+ ":" +:+ pretty (index_or_1 (column p)).

(** [toString] of package mdast-util-to-string: the [value] of a
    literal, else the [alt] of an image, else the texts of the children
    joined. *)
Fixpoint toString (node : Node) : string :=
  if truthy_string (value node) then default "" (value node)
  else if truthy_string (alt node) then default "" (alt node)
  else (fix all (cs : list Node) : string :=
          match cs with
          | [] => ""
          | c :: cs' => toString c +:+ all cs'
          end) (children node).

(** [plural(word, count)] of package pluralize, for a regular noun. *)
Definition plural (word : string) (count : Number) : string :=
  match count with
  | Integer 1 => word
  | _ => word +:+ "s"
  end.

(** Modelled from the spec: the Position Resolver (4.1), [location] of
    package vfile-location.  [line_indices] is the one-time index: the
    offset after every line ending ([\r\n], [\n] or [\r]), then the
    length plus one. *)
Fixpoint line_indices (s : string) (i : Z) : list Z :=
  match s with
  | EmptyString => [i + 1]
  | String c r =>
      if code_of c =? 13 then
        match r with
        | String c' r' =>
            if code_of c' =? 10 then (i + 2) :: line_indices r' (i + 2)
            else (i + 1) :: line_indices r (i + 1)
        | EmptyString => (i + 1) :: line_indices r (i + 1)
        end
      else if code_of c =? 10 then (i + 1) :: line_indices r (i + 1)
      else line_indices r (i + 1)
  end.

Definition undefined_point : Point := mkPoint None None None.

Fixpoint toPoint_from (indices : list Z) (index previous : Z)
    (offset : option Z) : Point :=
  match indices with
  | [] => undefined_point
  | x :: rest =>
      if to_number offset <? x
      then mkPoint (Some (index + 1))
             (Some (to_number offset - previous + 1)) offset
      else toPoint_from rest (index + 1) x offset
  end.

Definition toPoint (file : VFile) (offset : option Z) : Point :=
  let indices := line_indices (contents file) 0 in
  if (-1 <? to_number offset)
     && (to_number offset <? Z.of_nat (String.length (contents file)) + 1)
  then toPoint_from indices 0 0 offset
  else undefined_point.

(* ================================================================== *)
(** * The tree walker *)
(* ================================================================== *)

(** Modelled from the spec: the Tree Walker (4.3), [visit] of package
    unist-util-visit.  Depth first, pre-order: the visitor is called on
    a node of the requested kind, then the children are walked from left
    to right.  [s] is the closure state of the visitor. *)
Fixpoint visit {S : Type} (tree : Node) (kind : string)
    (visitor : Node -> S -> Lint S) (s : S) : Lint S :=
  let* s1 :=
    if String.eqb (type tree) kind then visitor tree s else ret s in
  (fix all (cs : list Node) (s : S) : Lint S :=
     match cs with
     | [] => ret s
     | c :: cs' => let* s' := visit c kind visitor s in all cs' s'
     end) (children tree) s1.

(* ================================================================== *)
(** * remark-lint-code-block-style *)
(* ================================================================== *)

(** [const styles = {null: true, fenced: true, indented: true}] *)
Definition styles : gmap string bool :=
  <["null" := true]> (<["fenced" := true]> (<["indented" := true]> ∅)).

(** [object[key] === true].  A key the object does not own is looked up
    on [Object.prototype], whose members are functions and objects,
    never the boolean [true]. *)
Definition is_true_at (object : gmap string bool) (key : option string)
    : bool :=
  bool_decide (object !! string_of key = Some true).

(** [/^\s*([~`])\1{2,}/.test(s)] *)
Fixpoint skip_spaces (s : string) : string :=
  match s with
  | String c r => if is_space c then skip_spaces r else s
  | EmptyString => s
  end.

Definition is_fence_char (c : ascii) : bool :=
  (code_of c =? 126) || (code_of c =? 96).

Definition fence_test (s : string) : bool :=
  match skip_spaces s with
  | String c (String c1 (String c2 _)) =>
      is_fence_char c && Ascii.eqb c1 c && Ascii.eqb c2 c
  | _ => false
  end.

(** The style read off a code node (the constant [current]). *)
Definition current_style (file_value : string) (node : Node) : string :=
  let initial := offset (pointStart (Some node)) in
  let final := offset (pointEnd (Some node)) in
  if truthy_string (lang node)
     || fence_test (slice file_value (to_number initial) (to_number final))
  then "fenced" else "indented".

(** The visitor of [codeBlockStyle]; [preferred] is the variable of the
    enclosing function that the callback reads and assigns. *)
Definition codeBlockStyle_visitor (file_value : string) (node : Node)
    (preferred : option string) : Lint (option string) :=
  if generated node then ret preferred
  else
    let current := current_style file_value node in
    if truthy_string preferred then
      do (if differs preferred current
          then message ("Code blocks should be " +:+ string_of preferred)
                 (AtNode node)
          else ret tt)
      then ret preferred
    else ret (Some current).

Definition codeBlockStyle (tree : Node) (file : VFile) (option_ : Setting)
    : Lint unit :=
  let value := contents file in
  let preferred :=
    match option_ with
    | OfString s => if negb (String.eqb s "consistent") then Some s else None
    | _ => None
    end in
  do (if negb (is_true_at styles preferred)
      then fail ("Incorrect code block style `" +:+ string_of preferred
                 +:+ "`: use either `'consistent'`, `'fenced'`, or `'indented'`")
      else ret tt)
  then
  do visit tree "code" (codeBlockStyle_visitor value) preferred
  then ret tt.

(* ================================================================== *)
(** * remark-lint-blockquote-indentation *)
(* ================================================================== *)

Definition check (node : Node) : Z :=
  to_number (column (pointStart (head (children node))))
  - to_number (column (pointStart (Some node))).

Definition blockquoteIndentation_visitor (node : Node)
    (preferred : option Number) : Lint (option Number) :=
  if generated node || (Z.of_nat (length (children node)) =? 0)
  then ret preferred
  else if truthy preferred then
    let diff := minus (number_of preferred) (check node) in
    do (if is_not_zero diff then
          let abs := abs diff in
          message ((if is_positive diff then "Add" else "Remove")
                   +:+ " " +:+ number_string abs +:+ " "
                   +:+ plural "space" abs
                   +:+ " between block quote and content")
            (AtPoint (pointStart (head (children node))))
        else ret tt)
    then ret preferred
  else ret (Some (Integer (check node))).

Definition blockquoteIndentation (tree : Node) (file : VFile)
    (option_ : Setting) : Lint unit :=
  let preferred :=
    match option_ with OfNumber n => Some n | _ => None end in
  do visit tree "blockquote" blockquoteIndentation_visitor preferred
  then ret tt.

(* ================================================================== *)
(** * remark-lint-maximum-heading-length *)
(* ================================================================== *)

Definition maximumHeadingLength_visitor (preferred : Number) (node : Node)
    (_ : unit) : Lint unit :=
  if negb (generated node)
     && exceeds (Z.of_nat (String.length (toString node))) preferred
  then message ("Use headings shorter than `" +:+ number_string preferred
                +:+ "`")
         (AtNode node)
  else ret tt.

Definition remarkLintMaximumHeadingLength (tree : Node) (file : VFile)
    (option_ : Setting) : Lint unit :=
  let preferred := match option_ with OfNumber n => n | _ => Integer 60 end in
  visit tree "heading" (maximumHeadingLength_visitor preferred) tt.

(* ================================================================== *)
(** * remark-lint-no-duplicate-headings *)
(* ================================================================== *)

(** The visitor; [map] is the object created by [Object.create(null)],
    so it has no key but those assigned here. *)
Definition noDuplicateHeadings_visitor (node : Node)
    (map : gmap (list Z) Node) : Lint (gmap (list Z) Node) :=
  if negb (generated node) then
    let value := toUpperCase (toString node) in
    let duplicate := map !! value in
    do (match duplicate with
        | Some duplicate =>
            message ("Do not use headings with similar content ("
                     +:+ stringifyPosition (pointStart (Some duplicate))
                     +:+ ")")
              (AtNode node)
        | None => ret tt
        end)
    then ret (<[value := node]> map)
  else ret map.

(** The rule takes [(tree, file)]; the option the wrapper passes as a
    third argument is not read. *)
Definition remarkLintNoDuplicateHeadings (tree : Node) (file : VFile)
    (option_ : Setting) : Lint unit :=
  do visit tree "heading" noDuplicateHeadings_visitor ∅
  then ret tt.

(* ================================================================== *)
(** * remark-lint-checkbox-content-indent *)
(* ================================================================== *)

(** [/\[([\t xX])]/.exec(s)] finds a match: a checkbox somewhere in [s]. *)
Definition is_box_char (c : ascii) : bool :=
  is_blank c || (code_of c =? 120) || (code_of c =? 88).

Fixpoint checkbox_exec (s : string) : bool :=
  match s with
  | String c r =>
      match r with
      | String c1 (String c2 _) =>
          ((code_of c =? 91) && is_box_char c1 && (code_of c2 =? 93))
          || checkbox_exec r
      | _ => false
      end
  | EmptyString => false
  end.

(** How often [while (/[\t ]/.test(value.charAt(final))) final++] steps,
    reading [s] from [final] on. *)
Fixpoint blank_run (s : string) : Z :=
  match s with
  | String c r => if is_blank c then 1 + blank_run r else 0
  | EmptyString => 0
  end.

Definition checkboxContentIndent_visitor (file : VFile) (node : Node)
    (_ : unit) : Lint unit :=
  let value := contents file in
  if negb (bool_decide (is_Some (checked node))) || generated node
  then ret tt
  else
    let point :=
      if Z.of_nat (length (children node)) =? 0
      then pointEnd (Some node)
      else pointStart (head (children node)) in
    let match_ :=
      checkbox_exec (slice value (to_number (offset point) - 4)
                       (to_number (offset point) + 1)) in
    if negb match_ then ret tt
    else
      let initial := offset point in
      let steps := blank_run (from_index value (to_number initial)) in
      let final := if steps =? 0 then initial
                   else Some (to_number initial + steps) in
      if 0 <? to_number final - to_number initial then
        message "Checkboxes should be followed by a single character"
          (AtPosition (toPoint file initial) (toPoint file final))
      else ret tt.

Definition remarkLintCheckboxContentIndent (tree : Node) (file : VFile)
    (option_ : Setting) : Lint unit :=
  visit tree "listItem" (checkboxContentIndent_visitor file) tt.

(* ================================================================== *)
(** * The five rules under one name *)
(* ================================================================== *)

Inductive Rule : Type :=
| CodeBlockStyle
| BlockquoteIndentation
| MaximumHeadingLength
| NoDuplicateHeadings
| CheckboxContentIndent.

(** One invocation of a rule function on [(tree, file, option)]. *)
Definition lint (rule : Rule) (tree : Node) (file : VFile)
    (option_ : Setting) : Lint unit :=
  match rule with
  | CodeBlockStyle => codeBlockStyle tree file option_
  | BlockquoteIndentation => blockquoteIndentation tree file option_
  | MaximumHeadingLength => remarkLintMaximumHeadingLength tree file option_
  | NoDuplicateHeadings => remarkLintNoDuplicateHeadings tree file option_
  | CheckboxContentIndent =>
      remarkLintCheckboxContentIndent tree file option_
  end.

(** The node kind a rule asks the walker for. *)
Definition kind_of (rule : Rule) : string :=
  match rule with
  | CodeBlockStyle => "code"
  | BlockquoteIndentation => "blockquote"
  | MaximumHeadingLength => "heading"
  | NoDuplicateHeadings => "heading"
  | CheckboxContentIndent => "listItem"
  end.

(* ================================================================== *)
(** * Node sequences *)
(* ================================================================== *)

(** The nodes of a tree in document order (depth first, pre-order). *)
Fixpoint preorder (tree : Node) : list Node :=
  tree :: (fix all (cs : list Node) : list Node :=
             match cs with
             | [] => []
             | c :: cs' => preorder c ++ all cs'
             end) (children tree).

Definition has_kind (kind : string) (node : Node) : bool :=
  String.eqb (type node) kind.

(** The nodes the walker hands to a visitor for [kind]. *)
Definition visited (tree : Node) (kind : string) : list Node :=
  List.filter (has_kind kind) (preorder tree).

(** A visitor run over a sequence of nodes. *)
Fixpoint visit_list {S : Type} (visitor : Node -> S -> Lint S)
    (nodes : list Node) (s : S) : Lint S :=
  match nodes with
  | [] => ret s
  | n :: ns => let* s' := visitor n s in visit_list visitor ns s'
  end.

(** Where a message starts in the source: the offset of the start
    point of the place it was given. *)
Definition start_offset (m : VFileMessage) : option Z :=
  match place m with
  | AtNode node => p ← position node; s ← start p; offset s
  | AtPosition from _ => offset from
  | AtPoint point => offset point
  | Nowhere => None
  end.

(* ================================================================== *)
(** * The verdicts, in the words of the specification *)
(* ================================================================== *)

(** "Consistent" mode: the option is absent or the sentinel. *)
Definition consistent (option_ : Setting) : Prop :=
  option_ = Absent \/ option_ = OfString "consistent".

Definition not_generated (node : Node) : bool := negb (generated node).

(** The code nodes and the block quotes a rule looks at: the ones with a
    position and, for a block quote, with content. *)
Definition code_blocks (tree : Node) : list Node :=
  List.filter not_generated (visited tree "code").

Definition has_content (node : Node) : bool :=
  negb (generated node || (Z.of_nat (length (children node)) =? 0)).

Definition block_quotes (tree : Node) : list Node :=
  List.filter has_content (visited tree "blockquote").

Definition headings (tree : Node) : list Node :=
  List.filter not_generated (visited tree "heading").

(** The mismatch diagnostic of [codeBlockStyle], and the verdict on a
    code node given the preferred style. *)
Definition code_warning (preferred : string) (node : Node)
    : VFileMessage :=
  mkMessage ("Code blocks should be " +:+ preferred) (AtNode node) false.

Definition code_verdict (file : VFile) (preferred : string) (node : Node)
    : list VFileMessage :=
  if String.eqb (current_style (contents file) node) preferred then []
  else [code_warning preferred node].

(** The mismatch diagnostic of [blockquoteIndentation], and the verdict
    on a block quote given the preferred indentation. *)
Definition quote_warning (preferred : Number) (node : Node)
    : VFileMessage :=
  let diff := minus preferred (check node) in
  mkMessage ((if is_positive diff then "Add" else "Remove")
             +:+ " " +:+ number_string (abs diff) +:+ " "
             +:+ plural "space" (abs diff)
             +:+ " between block quote and content")
    (AtPoint (pointStart (head (children node)))) false.

Definition quote_verdict (preferred : Number) (node : Node)
    : list VFileMessage :=
  if is_not_zero (minus preferred (check node))
  then [quote_warning preferred node] else [].

(** The verdict of [remarkLintMaximumHeadingLength] on a heading. *)
Definition length_verdict (preferred : Number) (node : Node)
    : list VFileMessage :=
  if exceeds (Z.of_nat (String.length (toString node))) preferred
  then [mkMessage ("Use headings shorter than `" +:+ number_string preferred
                   +:+ "`")
          (AtNode node) false]
  else [].

(** The options [codeBlockStyle] documents: one of the three names, or
    no string at all, which is read as ["consistent"]. *)
Definition legal_style (option_ : Setting) : Prop :=
  match option_ with
  | OfString s => s = "consistent" \/ s = "fenced" \/ s = "indented"
  | _ => True
  end.

(** The fatal diagnostic of [codeBlockStyle] for a style it rejects. *)
Definition incorrect_style (s : string) : VFileMessage :=
  mkMessage ("Incorrect code block style `" +:+ s
             +:+ "`: use either `'consistent'`, `'fenced'`, or `'indented'`")
    Nowhere true.

(** The content of a heading as [remarkLintNoDuplicateHeadings]
    compares it. *)
Definition normalized (node : Node) : list Z :=
  toUpperCase (toString node).

(** The diagnostic on the heading [node] that repeats [earlier]. *)
Definition similar_warning (earlier node : Node) : VFileMessage :=
  mkMessage ("Do not use headings with similar content ("
             +:+ stringifyPosition (pointStart (Some earlier)) +:+ ")")
    (AtNode node) false.

(** The most recent of the headings [seen] (latest first) with the
    normalized content of [node]. *)
Definition most_recent (seen : list Node) (node : Node) : option Node :=
  List.find (fun a => bool_decide (normalized a = normalized node)) seen.

(** The diagnostics on a sequence of headings, given the headings
    [seen] before it (latest first): a heading is reported when an
    earlier one has its normalized content, with a reference to the
    most recent such heading. *)
Fixpoint similar_headings (seen : list Node) (nodes : list Node)
    : list VFileMessage :=
  match nodes with
  | [] => []
  | b :: rest =>
      match most_recent seen b with
      | Some a => [similar_warning a b]
      | None => []
      end ++ similar_headings (b :: seen) rest
  end.

(** The object [map] holds, for each normalized content, the latest
    heading seen with it. *)
Definition map_of_seen (map : gmap (list Z) Node) (seen : list Node)
    : Prop :=
  forall key,
    map !! key = List.find (fun a => bool_decide (normalized a = key)) seen.

(** A small letter that has its capital 32 code units below it: [a]
    to [z], and the accented letters [U+00E0] to [U+00FE]. *)
Definition is_small (c : ascii) : Prop :=
  97 <= code_of c <= 122
  \/ (224 <= code_of c <= 254 /\ code_of c <> 247).

(** Two characters that are equal or the two cases of one letter. *)
Definition same_letter (c d : ascii) : Prop :=
  c = d
  \/ (is_small c /\ code_of d = code_of c - 32)
  \/ (is_small d /\ code_of c = code_of d - 32).

(** Two strings that differ only in letter case. *)
Fixpoint same_letters (s t : string) : Prop :=
  match s, t with
  | EmptyString, EmptyString => True
  | String c s', String d t' => same_letter c d /\ same_letters s' t'
  | _, _ => False
  end.

(* ================================================================== *)
(** * Trees in document order *)
(* ================================================================== *)

(** The offsets a node spans in the source. *)
Definition start_of (node : Node) : option Z :=
  p ← position node; s ← start p; offset s.

Definition end_of (node : Node) : option Z :=
  p ← position node; e ← end_ p; offset e.

(** Siblings one after the other: each passes [inside] from where the
    one before it ended. *)
Fixpoint in_sequence (inside : Z -> Node -> bool) (from : Z)
    (cs : list Node) : bool :=
  match cs with
  | [] => true
  | c :: cs' =>
      inside from c
      && match end_of c with
         | Some e => in_sequence inside e cs'
         | None => false
         end
  end.

(** [laid_out hi lo tree]: the tree spans offsets within [lo .. hi],
    start before end, and its children lie inside it one after the
    other; so down the tree.  This is how a parser leaves a tree. *)
Fixpoint laid_out (hi lo : Z) (tree : Node) : bool :=
  match start_of tree, end_of tree with
  | Some s, Some e =>
      (lo <=? s) && (s <=? e) && (e <=? hi)
      && in_sequence (laid_out e) s (children tree)
  | _, _ => false
  end.

Definition in_document_order (tree : Node) : bool :=
  match end_of tree with
  | Some e => laid_out e 0 tree
  | None => false
  end.



Definition content_start (node : Node) : Z :=
  match children node with
  | [] => to_number (end_of node)
  | c :: _ => to_number (start_of c)
  end.


(** A node with both offsets, start before end. *)
Definition well_placed (node : Node) : Prop :=
  exists s e, start_of node = Some s /\ end_of node = Some e /\ 0 <= s <= e.

(** A well placed node whose first child, if any, is well placed. *)
Definition placed (node : Node) : Prop :=
  well_placed node
  /\ match children node with
     | c :: _ => well_placed c
     | [] => True
     end.

(** The offsets met on a walk through the tree: the start of a node,
    what its children give from left to right, its end.  A node
    without a position, or without offsets in it, gives [None]. *)
Fixpoint events (tree : Node) : list (option Z) :=
  start_of tree
  :: (fix all (cs : list Node) : list (option Z) :=
        match cs with
        | [] => []
        | c :: cs' => events c ++ all cs'
        end) (children tree)
  ++ [end_of tree].

(** Offset [a] is not after offset [b], where both are known. *)
Definition not_after (a b : option Z) : Prop :=
  forall x y, a = Some x -> b = Some y -> x <= y.

Definition not_afterb (a b : option Z) : bool :=
  match a, b with
  | Some x, Some y => x <=? y
  | _, _ => true
  end.

(** No offset of the list is after a later one. *)
Fixpoint rising (l : list (option Z)) : bool :=
  match l with
  | [] => true
  | a :: r => forallb (not_afterb a) r && rising r
  end.

(** A tree in source order: of the offsets met on the walk, an earlier
    one is never after a later one.  A parser leaves a tree so; nodes
    put in without a position do not change it. *)
Definition in_source_order (tree : Node) : bool := rising (events tree).

(** Message [a] starts in the source no later than message [b], where
    both have a start offset. *)
Definition no_later (a b : VFileMessage) : Prop :=
  not_after (start_offset a) (start_offset b).

(** A message without a start offset, or with one of the given. *)
Definition starts_at (ks : list (option Z)) (m : VFileMessage) : Prop :=
  start_offset m = None \/ In (start_offset m) ks.


(** The offsets at which a rule can report on a node: where the node
    starts, and where its content starts (the first child, or the end
    of a node without children). *)
Definition slots (node : Node) : list (option Z) :=
  [start_of node;
   match children node with
   | [] => end_of node
   | c :: _ => start_of c
   end].

(* ================================================================== *)
(** * Sample documents *)
(* ================================================================== *)

(** The documents of the [@example] blocks in the rule files, as the
    parser hands them over: the source text and the tree with its
    positions. *)
Module Sample.

Definition at_ (l c o : Z) : Point := mkPoint (Some l) (Some c) (Some o).

Definition span (from to : Point) : option Position :=
  Some (mkPosition (Some from) (Some to)).

Definition parent (kind : string) (where_ : option Position)
    (cs : list Node) : Node :=
  mkNode kind where_ cs None None None None.

Definition text (where_ : option Position) (v : string) : Node :=
  mkNode "text" where_ [] (Some v) None None None.

Definition code (where_ : option Position) (v : string) : Node :=
  mkNode "code" where_ [] (Some v) None None None.

Definition item (where_ : option Position) (box : bool)
    (cs : list Node) : Node :=
  mkNode "listItem" where_ cs None None None (Some box).

Definition root (to : Point) (cs : list Node) : Node :=
  parent "root" (span (at_ 1 1 0) to) cs.

Definition nl : string := String (ascii_of_nat 10) EmptyString.

Fixpoint lines (ls : list string) : string :=
  match ls with
  | [] => EmptyString
  | l :: ls' => l +:+ nl +:+ lines ls'
  end.

(** code-block-style, [not-ok-consistent.md]. *)
Definition code_file : VFile :=
  mkVFile (lines ["    alpha();"; ""; "Paragraph."; "";
                  "```"; "bravo();"; "```"]).

Definition alpha : Node := code (span (at_ 1 1 0) (at_ 1 13 12)) "alpha();".
Definition bravo : Node := code (span (at_ 5 1 26) (at_ 7 4 42)) "bravo();".

Definition code_doc : Node :=
  root (at_ 8 1 43) [alpha;
        parent "paragraph" (span (at_ 3 1 14) (at_ 3 11 24))
          [text (span (at_ 3 1 14) (at_ 3 11 24)) "Paragraph."];
        bravo].

(** blockquote-indentation, [not-ok.md]. *)
Definition quote_file : VFile :=
  mkVFile (lines [">  Hello"; ""; "Paragraph."; ""; ">   World"; "";
                  "Paragraph."; ""; "> World"]).

Definition quote (from to inner : Point) (v : string) : Node :=
  parent "blockquote" (span from to)
    [parent "paragraph" (span inner to) [text (span inner to) v]].

Definition hello : Node := quote (at_ 1 1 0) (at_ 1 9 8) (at_ 1 4 3) "Hello".
Definition world : Node :=
  quote (at_ 5 1 22) (at_ 5 10 31) (at_ 5 5 26) "World".
Definition world' : Node :=
  quote (at_ 9 1 45) (at_ 9 8 52) (at_ 9 3 47) "World".

Definition quote_doc : Node :=
  root (at_ 10 1 53) [hello;
        parent "paragraph" (span (at_ 3 1 10) (at_ 3 11 20))
          [text (span (at_ 3 1 10) (at_ 3 11 20)) "Paragraph."];
        world;
        parent "paragraph" (span (at_ 7 1 33) (at_ 7 11 43))
          [text (span (at_ 7 1 33) (at_ 7 11 43)) "Paragraph."];
        world'].

(** A block quote whose marker sits one column in on its first line
    and whose content starts on the next line, in that same column;
    then a block quote indented by three. *)
Definition flush_file : VFile :=
  mkVFile (lines [" >"; ">foo"; ""; ">  bar"]).

Definition flush : Node := quote (at_ 1 2 1) (at_ 2 5 7) (at_ 2 2 4) "foo".
Definition bar : Node := quote (at_ 4 1 9) (at_ 4 7 15) (at_ 4 4 12) "bar".

Definition flush_doc : Node := root (at_ 5 1 16) [flush; bar].

(** no-duplicate-headings, [not-ok.md]. *)
Definition heading (from to inner : Point) (v : string) : Node :=
  parent "heading" (span from to) [text (span inner to) v].

Definition foo1 : Node := heading (at_ 1 1 0) (at_ 1 6 5) (at_ 1 3 2) "Foo".
Definition foo2 : Node := heading (at_ 3 1 7) (at_ 3 7 13) (at_ 3 4 10) "Foo".
Definition foo3 : Node :=
  parent "heading" (span (at_ 5 1 15) (at_ 5 29 43))
    [parent "link" (span (at_ 5 4 18) (at_ 5 29 43))
       [text (span (at_ 5 5 19) (at_ 5 8 22)) "Foo"]].

Definition heading_file : VFile :=
  mkVFile (lines ["# Foo"; ""; "## Foo"; ""; "## [Foo](http://foo.com/bar)"]).

Definition heading_doc : Node := root (at_ 6 1 44) [foo1; foo2; foo3].

(** Two equal headings, then one that differs from them. *)
Definition bar3 : Node :=
  heading (at_ 5 1 15) (at_ 5 7 21) (at_ 5 4 18) "Bar".
Definition foo_bar_doc : Node := root (at_ 6 1 22) [foo1; foo2; bar3].

(** Two equal headings, then the same word in lower case. *)
Definition lower3 : Node :=
  heading (at_ 5 1 15) (at_ 5 7 21) (at_ 5 4 18) "foo".
Definition lower_doc : Node := root (at_ 6 1 22) [foo1; foo2; lower3].

(** maximum-heading-length: a heading of 52 letters and spaces, and
    one of 5. *)
Definition long_heading : Node :=
  heading (at_ 1 1 0) (at_ 1 55 54) (at_ 1 3 2)
    "Alpha bravo charlie delta echo foxtrot golf hotel in".
Definition short_heading : Node :=
  heading (at_ 3 1 56) (at_ 3 8 63) (at_ 3 3 58) "Alpha".
Definition length_doc : Node :=
  root (at_ 4 1 64) [long_heading; short_heading].

(** checkbox-content-indent, [not-ok.md]. *)
Definition box_file : VFile :=
  mkVFile (lines ["- [ ] List item"; "+ [x]  List item";
                  "* [X]   List item"; "- [ ]    List item"]).

Definition box (from to inner : Point) (b : bool) : Node :=
  parent "list" (span from to)
    [item (span from to) b
       [parent "paragraph" (span inner to)
          [text (span inner to) "List item"]]].

Definition box_doc : Node :=
  root (at_ 5 1 70) [box (at_ 1 1 0) (at_ 1 16 15) (at_ 1 7 6) false;
        box (at_ 2 1 16) (at_ 2 17 32) (at_ 2 7 22) true;
        box (at_ 3 1 33) (at_ 3 18 50) (at_ 3 7 39) true;
        box (at_ 4 1 51) (at_ 4 19 69) (at_ 4 7 57) false].

(** [code_doc] after a transform has put in a code block and a
    heading of its own, which carry no position. *)
Definition inserted_code : Node := code None "charlie();".
Definition inserted_doc : Node :=
  root (at_ 8 1 43) [parent "heading" None [text None "Inserted"];
        alpha;
        inserted_code;
        parent "paragraph" (span (at_ 3 1 14) (at_ 3 11 24))
          [text (span (at_ 3 1 14) (at_ 3 11 24)) "Paragraph."];
        bravo].

(** [heading_doc] after a transform has put in a heading of its own
    between the first two. *)
Definition inserted_heading : Node :=
  parent "heading" None [text None "Foo"].
Definition inserted_heading_doc : Node :=
  root (at_ 6 1 44) [foo1; inserted_heading; foo2; foo3].

(** A document without content. *)
Definition empty_doc : Node := root (at_ 1 1 0) [].
Definition empty_file : VFile := mkVFile EmptyString.

End Sample.

(* ================================================================== *)
(** * Further notions for the properties of the rules *)
(* ================================================================== *)

(** A string [codeBlockStyle] has no entry for in [styles] and does not
    read as the sentinel. *)
Definition unknown_style (s : string) : Prop :=
  s <> "consistent" /\ s <> "fenced" /\ s <> "indented" /\ s <> "null".

(** The threshold [remarkLintMaximumHeadingLength] works with. *)
Definition threshold (option_ : Setting) : Number :=
  match option_ with OfNumber n => n | _ => Integer 60 end.

(** The heading is longer than [preferred]. *)
Definition too_long (preferred : Number) (node : Node) : bool :=
  exceeds (Z.of_nat (String.length (toString node))) preferred.

(** The diagnostic of [remarkLintMaximumHeadingLength] on a heading. *)
Definition length_warning (preferred : Number) (node : Node)
    : VFileMessage :=
  mkMessage ("Use headings shorter than `" +:+ number_string preferred
             +:+ "`")
    (AtNode node) false.

(** The normalized contents of a sequence of headings, as a set. *)
Definition contents_of (nodes : list Node) : gset (list Z) :=
  list_to_set (map normalized nodes).

(** Every character of [s] passes [p]. *)
Fixpoint only (p : ascii -> bool) (s : string) : bool :=
  match s with
  | EmptyString => true
  | String c r => p c && only p r
  end.

(** [s] begins with a character that passes [p]. *)
Definition begins_with (p : ascii -> bool) (s : string) : bool :=
  match s with
  | EmptyString => false
  | String c _ => p c
  end.

(** The point [remarkLintCheckboxContentIndent] measures from (the
    constant [point]): the end of an item without children, else the
    start of its first child. *)
Definition content_point (node : Node) : Point :=
  if Z.of_nat (length (children node)) =? 0
  then pointEnd (Some node)
  else pointStart (head (children node)).

(** The source text of a code node: [value.slice(initial, final)]. *)
Definition source_of (file : VFile) (node : Node) : string :=
  slice (contents file)
    (to_number (offset (pointStart (Some node))))
    (to_number (offset (pointEnd (Some node)))).

(** [s] starts with one fence marker three times. *)
Definition opens_fence (s : string) : bool :=
  match s with
  | String c (String c1 (String c2 _)) =>
      is_fence_char c && Ascii.eqb c1 c && Ascii.eqb c2 c
  | _ => false
  end.

(** [s] without its leading spaces, [k] of them at most. *)
Fixpoint unindent (k : nat) (s : string) : string :=
  match k, s with
  | S k', String c r => if code_of c =? 32 then unindent k' r else s
  | _, _ => s
  end.

(** A fenced code block, as Markdown has it: the source opens a fence
    after at most three spaces. *)
Definition fenced_block (file : VFile) (node : Node) : bool :=
  opens_fence (unindent 3 (source_of file node)).

(** An indented code block, as Markdown has it: no info string, and
    the source starts with a tab or with four spaces. *)
Definition indented_block (file : VFile) (node : Node) : bool :=
  negb (truthy_string (lang node))
  && (begins_with (fun c => code_of c =? 9) (source_of file node)
      || String.prefix "    " (source_of file node)).

(** The text of a code block, after its indentation, starts like a
    fence. *)
Definition fence_text (file : VFile) (node : Node) : bool :=
  opens_fence (skip_spaces (source_of file node)).

(** Number [x] is the integer [k]. *)
Definition is_integer (x : Number) (k : Z) : bool :=
  match x with Integer z => z =? k | _ => false end.

(** Further sample documents. *)
Module More.

(** [quote_doc] with an empty block quote put before its first one. *)
Definition empty_quote : Node :=
  Sample.parent "blockquote" (Sample.span (Sample.at_ 1 1 0) (Sample.at_ 1 1 0))
    [].

Definition quote_doc' : Node :=
  Sample.root (Sample.at_ 10 1 53) (empty_quote :: children Sample.quote_doc).

(** A block quote with a position whose only child, put in by a
    transform, has none. *)
Definition titled_quote : Node :=
  Sample.parent "blockquote"
    (Sample.span (Sample.at_ 1 1 0) (Sample.at_ 1 9 8))
    [Sample.parent "paragraph" None [Sample.text None "Note"]].

(** The document around [titled_quote]. *)
Definition titled_file : VFile := mkVFile (Sample.lines [">  Hello"]).
Definition titled_doc : Node := Sample.root (Sample.at_ 2 1 9) [titled_quote].

(** A document that opens with an empty block quote: [>] alone on the
    first line, then two block quotes indented by three and by four. *)
Definition hollow_file : VFile :=
  mkVFile (Sample.lines [">"; ""; ">  Hello"; ""; ">   World"]).

Definition hollow : Node :=
  Sample.parent "blockquote"
    (Sample.span (Sample.at_ 1 1 0) (Sample.at_ 1 2 1)) [].
Definition hello : Node :=
  Sample.quote (Sample.at_ 3 1 3) (Sample.at_ 3 9 11) (Sample.at_ 3 4 6)
    "Hello".
Definition world : Node :=
  Sample.quote (Sample.at_ 5 1 13) (Sample.at_ 5 10 22) (Sample.at_ 5 5 17)
    "World".

Definition hollow_doc : Node :=
  Sample.root (Sample.at_ 6 1 23) [hollow; hello; world].

(** An indented code block whose text is a line of three backticks,
    then a fenced code block. *)
Definition fence_line_file : VFile :=
  mkVFile (Sample.lines ["    ```"; ""; "```"; "code"; "```"]).

Definition fence_line : Node :=
  Sample.code (Sample.span (Sample.at_ 1 1 0) (Sample.at_ 1 8 7)) "```".
Definition fenced_code : Node :=
  Sample.code (Sample.span (Sample.at_ 3 1 9) (Sample.at_ 5 4 21)) "code".

Definition fence_line_doc : Node :=
  Sample.root (Sample.at_ 6 1 22) [fence_line; fenced_code].

(** [ok.md] of code-block-style for the setting ["indented"]. *)
Definition indented_file : VFile :=
  mkVFile (Sample.lines ["    alpha();"; ""; "Paragraph."; "";
                         "    bravo();"]).

Definition bravo : Node :=
  Sample.code (Sample.span (Sample.at_ 5 1 26) (Sample.at_ 5 13 38))
    "bravo();".

Definition indented_doc : Node :=
  Sample.root (Sample.at_ 6 1 39) [Sample.alpha;
    Sample.parent "paragraph"
      (Sample.span (Sample.at_ 3 1 14) (Sample.at_ 3 11 24))
      [Sample.text (Sample.span (Sample.at_ 3 1 14) (Sample.at_ 3 11 24))
         "Paragraph."];
    bravo].

(** A list of two items without a checkbox. *)
Definition plain_file : VFile := mkVFile (Sample.lines ["- one"; "- two"]).

Definition plain_item (from to inner : Point) (v : string) : Node :=
  mkNode "listItem" (Sample.span from to)
    [Sample.parent "paragraph" (Sample.span inner to)
       [Sample.text (Sample.span inner to) v]]
    None None None None.

Definition plain_doc : Node :=
  Sample.root (Sample.at_ 3 1 12)
    [Sample.parent "list" (Sample.span (Sample.at_ 1 1 0) (Sample.at_ 2 6 11))
       [plain_item (Sample.at_ 1 1 0) (Sample.at_ 1 6 5) (Sample.at_ 1 3 2)
          "one";
        plain_item (Sample.at_ 2 1 6) (Sample.at_ 2 6 11) (Sample.at_ 2 3 8)
          "two"]].

(** Two headings that differ in the case of their letters only, one of
    them accented: [Caf\u00E9] and [CAF\u00C9]. *)
Definition e_acute : string := String (ascii_of_nat 233) EmptyString.
Definition E_acute : string := String (ascii_of_nat 201) EmptyString.

Definition cafe_file : VFile :=
  mkVFile (Sample.lines ["# Caf" +:+ e_acute; ""; "# CAF" +:+ E_acute]).

Definition cafe1 : Node :=
  Sample.heading (Sample.at_ 1 1 0) (Sample.at_ 1 7 6) (Sample.at_ 1 3 2)
    ("Caf" +:+ e_acute).
Definition cafe2 : Node :=
  Sample.heading (Sample.at_ 3 1 8) (Sample.at_ 3 7 14) (Sample.at_ 3 3 10)
    ("CAF" +:+ E_acute).

Definition cafe_doc : Node := Sample.root (Sample.at_ 4 1 15) [cafe1; cafe2].

End More.

(* ================================================================== *)
(** * Laws of the reporter and of the walker *)
(* ================================================================== *)

Section Walker.
Context {S : Type}.
Implicit Types (visitor : Node -> S -> Lint S) (s : S).

Lemma bind_ret_l {A B} (a : A) (k : A -> Lint B) : bind (ret a) k = k a.
Proof. unfold bind, ret. destruct (k a); reflexivity. Qed.

Lemma bind_ret_r {A} (m : Lint A) : bind m ret = m.
Proof. destruct m; simpl; rewrite ?app_nil_r; reflexivity. Qed.

Lemma bind_assoc {A B C} (m : Lint A) (k : A -> Lint B)
    (h : B -> Lint C) :
  bind (bind m k) h = bind m (fun a => bind (k a) h).
Proof.
  destruct m as [a ms|ms]; simpl; [|reflexivity].
  destruct (k a) as [b ms'|ms']; simpl; [|reflexivity].
  destruct (h b); rewrite app_assoc; reflexivity.
Qed.

Lemma visit_list_app visitor (l1 l2 : list Node) s :
  visit_list visitor (l1 ++ l2) s
  = bind (visit_list visitor l1 s) (visit_list visitor l2).
Proof.
  revert s. induction l1 as [|n l1 IH]; intros s; cbn [visit_list app].
  - rewrite bind_ret_l. reflexivity.
  - rewrite bind_assoc. destruct (visitor n s) as [s' ms|ms]; simpl;
      [rewrite IH|]; reflexivity.
Qed.

(** Induction on a tree, with the property known of every child. *)
Lemma Node_children_ind (P : Node -> Prop) :
  (forall n, Forall P (children n) -> P n) -> forall n, P n.
Proof.
  intros H. fix IH 1. intros n. apply H.
  destruct n as [t p cs v a l c]. simpl.
  refine ((fix go (l : list Node) : Forall P l :=
             match l with
             | [] => List.Forall_nil P
             | c :: l' => List.Forall_cons P c l' (IH c) (go l')
             end) cs).
Qed.

Lemma preorder_unfold tree :
  preorder tree = tree :: flat_map preorder (children tree).
Proof.
  destruct tree as [t p cs v a l c]. reflexivity.
Qed.

Lemma visit_unfold visitor kind tree s :
  visit tree kind visitor s
  = let* s1 :=
      if has_kind kind tree then visitor tree s else ret s in
    visit_list (fun c => visit c kind visitor) (children tree) s1.
Proof.
  destruct tree as [t p cs v a l c]. unfold has_kind. simpl.
  destruct (if String.eqb t kind then _ else _) as [s1 ms|ms]; simpl;
    [|reflexivity].
  assert (Hall : forall s0,
    (fix all (cs0 : list Node) (s0 : S) {struct cs0} : Lint S :=
       match cs0 with
       | [] => ret s0
       | c0 :: cs' => let* s' := visit c0 kind visitor s0 in all cs' s'
       end) cs s0
    = visit_list (fun c => visit c kind visitor) cs s0).
  { induction cs as [|c0 cs IH]; intros s0; simpl; [reflexivity|].
    destruct (visit c0 kind visitor s0); simpl; [rewrite IH|];
      reflexivity. }
  rewrite Hall. reflexivity.
Qed.

(** The walker is the visitor folded over the nodes of the requested
    kind, in document order. *)
Lemma visit_visit_list visitor kind tree s :
  visit tree kind visitor s = visit_list visitor (visited tree kind) s.
Proof.
  revert s. induction tree as [n IH] using Node_children_ind. intros s.
  rewrite visit_unfold. unfold visited. rewrite preorder_unfold.
  cbn [List.filter].
  assert (Hall : forall s1,
    visit_list (fun c => visit c kind visitor) (children n) s1
    = visit_list visitor
        (List.filter (has_kind kind) (flat_map preorder (children n)))
        s1).
  { induction IH as [|c0 cs0 Hc _ IHcs]; intros s1; [reflexivity|].
    cbn [flat_map visit_list].
    rewrite List.filter_app, visit_list_app, Hc.
    destruct (visit_list visitor _ s1) as [s' ms|ms]; simpl;
      [rewrite IHcs|]; reflexivity. }
  destruct (has_kind kind n); cbn [visit_list].
  - destruct (visitor n s) as [s' ms|ms]; simpl; [rewrite Hall|];
      reflexivity.
  - rewrite bind_ret_l. apply Hall.
Qed.
End Walker.

(** A visitor that returns at once on some nodes can be run on the
    other nodes alone. *)
Lemma visit_list_filter {S : Type} (keep : Node -> bool)
    (visitor : Node -> S -> Lint S) :
  (forall n s, keep n = false -> visitor n s = ret s) ->
  forall ns s,
    visit_list visitor ns s = visit_list visitor (List.filter keep ns) s.
Proof.
  intros Hskip ns. induction ns as [|n ns IH]; intros s; [reflexivity|].
  cbn [List.filter visit_list]. destruct (keep n) eqn:Hk.
  - cbn [visit_list]. destruct (visitor n s); simpl; [rewrite IH|];
      reflexivity.
  - rewrite (Hskip _ _ Hk), bind_ret_l. apply IH.
Qed.

Lemma filter_keeps {A} (keep : A -> bool) (l : list A) :
  Forall (fun x => keep x = true) (List.filter keep l).
Proof.
  induction l as [|x l IH]; simpl; [constructor|].
  destruct (keep x) eqn:E; [constructor|]; assumption.
Qed.

(* ================================================================== *)
(** * Inferring a preferred style *)
(* ================================================================== *)

(** What [codeBlockStyle] and [blockquoteIndentation] have in common: a
    visitor over a variable [preferred] that is [null] or a style.  It
    skips the nodes it does not [keep]; while [preferred] is falsy it
    assigns the style of the node; once [preferred] is truthy it leaves
    it alone and emits [warn preferred node]. *)
Section Inference.
Context {St : Type}.
Variable visitor : Node -> option St -> Lint (option St).
Variable truthy : option St -> bool.
Variable keep : Node -> bool.
Variable extract : Node -> St.
Variable warn : St -> Node -> list VFileMessage.

Hypothesis visitor_skip :
  forall n s, keep n = false -> visitor n s = ret s.
Hypothesis visitor_assign :
  forall n s, keep n = true -> truthy s = false ->
    visitor n s = ret (Some (extract n)).
Hypothesis visitor_compare :
  forall n p, keep n = true -> truthy (Some p) = true ->
    visitor n (Some p) = Done (Some p) (warn p n).

Lemma kept_fixed p ns :
  truthy (Some p) = true ->
  Forall (fun n => keep n = true) ns ->
  visit_list visitor ns (Some p) = Done (Some p) (flat_map (warn p) ns).
Proof.
  intros Hp Hns. induction Hns as [|n ns Hn _ IH]; [reflexivity|].
  cbn [visit_list flat_map]. rewrite (visitor_compare _ _ Hn Hp).
  simpl. rewrite IH. reflexivity.
Qed.

(** A fixed preferred style: every kept node is compared with it. *)
Lemma visit_list_fixed p ns :
  truthy (Some p) = true ->
  visit_list visitor ns (Some p)
  = Done (Some p) (flat_map (warn p) (List.filter keep ns)).
Proof.
  intros Hp. rewrite (visit_list_filter keep visitor visitor_skip).
  apply kept_fixed; [assumption|apply filter_keeps].
Qed.

(** No preferred style yet: the first kept node sets it, when its
    style is truthy, and the later ones are compared with it. *)
Lemma visit_list_inferred s ns first rest :
  truthy s = false ->
  List.filter keep ns = first :: rest ->
  truthy (Some (extract first)) = true ->
  visit_list visitor ns s
  = Done (Some (extract first)) (flat_map (warn (extract first)) rest).
Proof.
  intros Hs Hns Hfirst.
  rewrite (visit_list_filter keep visitor visitor_skip), Hns.
  pose proof (filter_keeps keep ns) as Hk. rewrite Hns in Hk.
  inversion Hk as [|? ? Hk1 Hk2]; subst.
  cbn [visit_list]. rewrite (visitor_assign _ _ Hk1 Hs), bind_ret_l.
  apply kept_fixed; assumption.
Qed.

(** Without a kept node nothing is emitted. *)
Lemma visit_list_none s ns :
  List.filter keep ns = [] -> visit_list visitor ns s = ret s.
Proof.
  intros Hns. rewrite (visit_list_filter keep visitor visitor_skip), Hns.
  reflexivity.
Qed.

(** Two falsy values of [preferred] cannot be told apart by the
    messages. *)
Lemma visit_list_falsy s s' ns :
  truthy s = false -> truthy s' = false ->
  exists t t' ms,
    visit_list visitor ns s = Done t ms
    /\ visit_list visitor ns s' = Done t' ms.
Proof.
  intros Hs Hs'. revert s s' Hs Hs'.
  induction ns as [|n ns IH]; intros s s' Hs Hs'.
  - exists s, s', []. split; reflexivity.
  - cbn [visit_list]. destruct (keep n) eqn:Hk.
    + rewrite (visitor_assign _ _ Hk Hs), (visitor_assign _ _ Hk Hs').
      rewrite !bind_ret_l.
      destruct (visit_list visitor ns (Some (extract n))) as [t ms|ms] eqn:E.
      * exists t, t, ms. split; reflexivity.
      * exfalso. destruct (truthy (Some (extract n))) eqn:Ht.
        -- rewrite (visit_list_fixed _ _ Ht) in E. discriminate.
        -- destruct (IH _ _ Ht Ht) as (t & _ & ms' & E' & _).
           rewrite E in E'. discriminate.
    + rewrite !(visitor_skip _ _ Hk), !bind_ret_l. apply IH; assumption.
Qed.
End Inference.

(* ================================================================== *)
(** * code-block-style: the visitor and the option table *)
(* ================================================================== *)

Lemma current_style_cases value node :
  current_style value node = "fenced"
  \/ current_style value node = "indented".
Proof. unfold current_style. destruct (_ || _); auto. Qed.

Lemma current_style_truthy value node :
  truthy_string (Some (current_style value node)) = true.
Proof. destruct (current_style_cases value node) as [-> | ->]; reflexivity. Qed.

Lemma codeBlockStyle_visitor_skip value n s :
  not_generated n = false -> codeBlockStyle_visitor value n s = ret s.
Proof.
  unfold not_generated, codeBlockStyle_visitor. intros H.
  destruct (generated n); [reflexivity|discriminate].
Qed.

Lemma codeBlockStyle_visitor_assign value n s :
  not_generated n = true -> truthy_string s = false ->
  codeBlockStyle_visitor value n s = ret (Some (current_style value n)).
Proof.
  unfold not_generated, codeBlockStyle_visitor. intros H Hs.
  destruct (generated n); [discriminate|]. rewrite Hs. reflexivity.
Qed.

Lemma codeBlockStyle_visitor_compare file n p :
  not_generated n = true -> truthy_string (Some p) = true ->
  codeBlockStyle_visitor (contents file) n (Some p)
  = Done (Some p) (code_verdict file p n).
Proof.
  unfold not_generated, codeBlockStyle_visitor, code_verdict. intros H Hp.
  destruct (generated n); [discriminate|]. rewrite Hp.
  unfold differs. rewrite String.eqb_sym.
  destruct (String.eqb (current_style _ n) p); reflexivity.
Qed.

(** The keys at which [styles] holds [true]. *)
Lemma styles_true key :
  is_true_at styles key = true
  <-> string_of key = "null" \/ string_of key = "fenced"
      \/ string_of key = "indented".
Proof.
  unfold is_true_at, styles. rewrite bool_decide_eq_true.
  rewrite !lookup_insert, lookup_empty.
  split.
  - repeat case_decide; intros Hkey; auto; discriminate.
  - intros [Hkey | [Hkey | Hkey]]; repeat case_decide; congruence.
Qed.

Lemma styles_null : is_true_at styles None = true.
Proof. apply styles_true. left. reflexivity. Qed.

(** The run of [codeBlockStyle] once the option is accepted. *)
Lemma codeBlockStyle_accepted tree file option_ preferred :
  preferred
  = match option_ with
    | OfString s => if negb (String.eqb s "consistent") then Some s else None
    | _ => None
    end ->
  is_true_at styles preferred = true ->
  codeBlockStyle tree file option_
  = do visit_list (codeBlockStyle_visitor (contents file))
         (visited tree "code") preferred
    then ret tt.
Proof.
  intros -> Hok. unfold codeBlockStyle. rewrite Hok. cbn [negb].
  rewrite bind_ret_l, visit_visit_list. reflexivity.
Qed.

Lemma consistent_preferred option_ :
  consistent option_ ->
  match option_ with
  | OfString s => if negb (String.eqb s "consistent") then Some s else None
  | _ => None
  end = None.
Proof. intros [-> | ->]; reflexivity. Qed.

(* ================================================================== *)
(** * blockquote-indentation: the visitor *)
(* ================================================================== *)

Lemma blockquoteIndentation_visitor_skip n s :
  has_content n = false -> blockquoteIndentation_visitor n s = ret s.
Proof.
  unfold has_content, blockquoteIndentation_visitor. intros H.
  destruct (generated n || _); [reflexivity|discriminate].
Qed.

Lemma blockquoteIndentation_visitor_assign n s :
  has_content n = true -> truthy s = false ->
  blockquoteIndentation_visitor n s = ret (Some (Integer (check n))).
Proof.
  unfold has_content, blockquoteIndentation_visitor. intros H Hs.
  destruct (generated n || _); [discriminate|]. rewrite Hs. reflexivity.
Qed.

Lemma blockquoteIndentation_visitor_compare n p :
  has_content n = true -> truthy (Some p) = true ->
  blockquoteIndentation_visitor n (Some p) = Done (Some p) (quote_verdict p n).
Proof.
  unfold has_content, blockquoteIndentation_visitor, quote_verdict.
  intros H Hp. destruct (generated n || _); [discriminate|]. rewrite Hp.
  change (number_of (Some p)) with p.
  destruct (is_not_zero (minus p (check n))); reflexivity.
Qed.

(** The verdict for an integer indentation: nothing when the block
    quote has it. *)
Lemma quote_verdict_integer (p : Z) n :
  quote_verdict p n = if check n =? p then [] else [quote_warning p n].
Proof.
  unfold quote_verdict. cbn [minus is_not_zero].
  destruct (Z.eqb_spec (check n) p) as [->|Hne].
  - rewrite Z.sub_diag. reflexivity.
  - destruct (Z.eqb_spec (p - check n) 0) as [E|_]; [lia|]. reflexivity.
Qed.

Lemma truthy_integer (n : Z) : n <> 0 -> truthy (Some (Integer n)) = true.
Proof.
  intros Hn. simpl. destruct (Z.eqb_spec n 0); [contradiction|reflexivity].
Qed.

Lemma blockquoteIndentation_run tree file option_ :
  blockquoteIndentation tree file option_
  = do visit_list blockquoteIndentation_visitor (visited tree "blockquote")
         (match option_ with OfNumber n => Some n | _ => None end)
    then ret tt.
Proof. unfold blockquoteIndentation. rewrite visit_visit_list. reflexivity. Qed.

(* ================================================================== *)
(** * The documented examples *)
(* ================================================================== *)

(** The outputs the rule files list for their examples. *)
Example codeBlockStyle_not_ok_consistent :
  codeBlockStyle Sample.code_doc Sample.code_file Absent
  = Done tt [mkMessage "Code blocks should be indented"
               (AtNode Sample.bravo) false].
Proof. vm_compute. reflexivity. Qed.

Example blockquoteIndentation_not_ok :
  blockquoteIndentation Sample.quote_doc Sample.quote_file Absent
  = Done tt
      [mkMessage "Remove 1 space between block quote and content"
         (AtPoint (Sample.at_ 5 5 26)) false;
       mkMessage "Add 1 space between block quote and content"
         (AtPoint (Sample.at_ 9 3 47)) false].
Proof. vm_compute. reflexivity. Qed.

Example noDuplicateHeadings_not_ok :
  remarkLintNoDuplicateHeadings Sample.heading_doc Sample.heading_file Absent
  = Done tt
      [mkMessage "Do not use headings with similar content (1:1)"
         (AtNode Sample.foo2) false;
       mkMessage "Do not use headings with similar content (3:1)"
         (AtNode Sample.foo3) false].
Proof. vm_compute. reflexivity. Qed.

Example checkboxContentIndent_not_ok :
  remarkLintCheckboxContentIndent Sample.box_doc Sample.box_file Absent
  = Done tt
      [mkMessage "Checkboxes should be followed by a single character"
         (AtPosition (Sample.at_ 2 7 22) (Sample.at_ 2 8 23)) false;
       mkMessage "Checkboxes should be followed by a single character"
         (AtPosition (Sample.at_ 3 7 39) (Sample.at_ 3 9 41)) false;
       mkMessage "Checkboxes should be followed by a single character"
         (AtPosition (Sample.at_ 4 7 57) (Sample.at_ 4 10 60)) false].
Proof. vm_compute. reflexivity. Qed.

Example maximumHeadingLength_not_ok :
  remarkLintMaximumHeadingLength Sample.length_doc Sample.empty_file
    (OfNumber 40)
  = Done tt [mkMessage "Use headings shorter than `40`"
               (AtNode Sample.long_heading) false].
Proof. vm_compute. reflexivity. Qed.

(* ================================================================== *)
(** * Consistent mode and fixed mode *)
(* ================================================================== *)

Lemma codeBlockStyle_consistent tree file option_ first rest :
  consistent option_ ->
  code_blocks tree = first :: rest ->
  codeBlockStyle tree file option_
  = Done tt
      (flat_map
         (code_verdict file (current_style (contents file) first)) rest).
Proof.
  intros Hc Hnodes.
  rewrite (codeBlockStyle_accepted tree file option_ None);
    [|symmetry; apply consistent_preferred; assumption|apply styles_null].
  rewrite (visit_list_inferred (codeBlockStyle_visitor (contents file))
             truthy_string not_generated (current_style (contents file))
             (code_verdict file)
             (codeBlockStyle_visitor_skip _)
             (codeBlockStyle_visitor_assign _)
             (codeBlockStyle_visitor_compare file)
             None _ first rest eq_refl Hnodes (current_style_truthy _ _)).
  simpl. rewrite app_nil_r. reflexivity.
Qed.

Lemma blockquoteIndentation_falsy tree file option_ first rest :
  truthy (match option_ with OfNumber n => Some n | _ => None end)
  = false ->
  block_quotes tree = first :: rest ->
  check first <> 0 ->
  blockquoteIndentation tree file option_
  = Done tt (flat_map (quote_verdict (check first)) rest).
Proof.
  intros Hs Hnodes Hfirst. rewrite blockquoteIndentation_run.
  rewrite (visit_list_inferred blockquoteIndentation_visitor
             truthy has_content (fun n => Integer (check n)) quote_verdict
             blockquoteIndentation_visitor_skip
             blockquoteIndentation_visitor_assign
             blockquoteIndentation_visitor_compare
             _ _ first rest Hs Hnodes).
  - simpl. rewrite app_nil_r. reflexivity.
  - apply truthy_integer. assumption.
Qed.

Lemma codeBlockStyle_fixed tree file p :
  p = "fenced" \/ p = "indented" ->
  codeBlockStyle tree file (OfString p)
  = Done tt (flat_map (code_verdict file p) (code_blocks tree)).
Proof.
  intros Hp.
  rewrite (codeBlockStyle_accepted tree file (OfString p) (Some p)).
  - rewrite (visit_list_fixed (codeBlockStyle_visitor (contents file))
               truthy_string not_generated
               (code_verdict file)
               (codeBlockStyle_visitor_skip _)
               (codeBlockStyle_visitor_compare file)).
    + simpl. rewrite app_nil_r. reflexivity.
    + destruct Hp as [-> | ->]; reflexivity.
  - destruct Hp as [-> | ->]; reflexivity.
  - apply styles_true. destruct Hp as [-> | ->]; auto.
Qed.

Lemma blockquoteIndentation_fixed tree file (n : Number) :
  truthy (Some n) = true ->
  blockquoteIndentation tree file (OfNumber n)
  = Done tt (flat_map (quote_verdict n) (block_quotes tree)).
Proof.
  intros Hn. rewrite blockquoteIndentation_run.
  rewrite (visit_list_fixed blockquoteIndentation_visitor
             truthy has_content quote_verdict
             blockquoteIndentation_visitor_skip
             blockquoteIndentation_visitor_compare).
  - simpl. rewrite app_nil_r. reflexivity.
  - assumption.
Qed.

(** C1 (as amended).  In consistent mode (option absent or
    ["consistent"]) the first code block with a position, and the first
    block quote with a position and content, produce no diagnostic; each
    later such node produces the mismatch diagnostic exactly when its
    style differs from the style of that first node.  For block quotes
    this is so when the indentation of the first one is not zero. *)
Theorem consistent_mode_compares_with_first :
  (forall tree file option_ first rest,
      consistent option_ ->
      code_blocks tree = first :: rest ->
      codeBlockStyle tree file option_
      = Done tt
          (flat_map
             (fun node =>
                if String.eqb (current_style (contents file) node)
                     (current_style (contents file) first)
                then []
                else [code_warning (current_style (contents file) first)
                        node])
             rest))
  /\ (forall tree file option_ first rest,
         consistent option_ ->
         block_quotes tree = first :: rest ->
         check first <> 0 ->
         blockquoteIndentation tree file option_
         = Done tt
             (flat_map
                (fun node =>
                   if check node =? check first then []
                   else [quote_warning (check first) node])
                rest)).
Proof.
  split.
  - intros. apply codeBlockStyle_consistent; assumption.
  - intros tree file option_ first rest Hc Hnodes Hfirst.
    rewrite (blockquoteIndentation_falsy tree file option_ first rest);
      try assumption.
    + f_equal. apply List.flat_map_ext. intros node.
      apply quote_verdict_integer.
    + destruct Hc as [-> | ->]; reflexivity.
Qed.

Lemma consistent_mode_compares_with_first_witness :
  blockquoteIndentation Sample.quote_doc Sample.quote_file Absent
  = Done tt
      (flat_map
         (fun node =>
            if check node =? check Sample.hello then []
            else [quote_warning (check Sample.hello) node])
         [Sample.world; Sample.world']).
Proof.
  apply (proj2 consistent_mode_compares_with_first
           Sample.quote_doc Sample.quote_file Absent Sample.hello
           [Sample.world; Sample.world']).
  - left. reflexivity.
  - vm_compute. reflexivity.
  - vm_compute. discriminate.
Defined.

(** C1, as stated, fails for [blockquoteIndentation]: the first block
    quote of [hollow_doc] has a position and no content.  The rule
    passes over it, as its guard on the number of children says, and the
    block quote after it, though indented otherwise, sets the reference
    and produces no diagnostic. *)
Lemma empty_block_quote_is_no_reference :
  ~ (forall tree file first rest,
        List.filter not_generated (visited tree "blockquote")
        = first :: rest ->
        blockquoteIndentation tree file Absent
        = Done tt
            (flat_map
               (fun node =>
                  if check node =? check first then []
                  else [quote_warning (check first) node])
               rest)).
Proof.
  intros H.
  specialize (H More.hollow_doc More.hollow_file More.hollow
                [More.hello; More.world] eq_refl).
  vm_compute in H. discriminate H.
Qed.

(** The output of the rule on [hollow_doc]. *)
Example blockquoteIndentation_hollow :
  check More.hollow = -1
  /\ check More.hello = 3
  /\ blockquoteIndentation More.hollow_doc More.hollow_file Absent
     = Done tt
         [mkMessage "Remove 1 space between block quote and content"
            (AtPoint (Sample.at_ 5 5 17)) false].
Proof. repeat split; vm_compute; reflexivity. Qed.

(* ================================================================== *)
(** * The source of a code block *)
(* ================================================================== *)

Lemma fence_test_opens s : fence_test s = opens_fence (skip_spaces s).
Proof. reflexivity. Qed.

Lemma opens_fence_no_space s :
  opens_fence s = true -> skip_spaces s = s.
Proof.
  destruct s as [|c [|c1 [|c2 r]]]; try discriminate.
  intros H. cbn [opens_fence] in H.
  apply andb_prop in H. destruct H as [H _].
  apply andb_prop in H. destruct H as [H _].
  cbn [skip_spaces].
  unfold is_fence_char in H. unfold is_space.
  destruct (Z.eqb_spec (code_of c) 126) as [->|_]; [reflexivity|].
  destruct (Z.eqb_spec (code_of c) 96) as [->|_]; [reflexivity|].
  discriminate.
Qed.

Lemma skip_spaces_unindent k s : skip_spaces (unindent k s) = skip_spaces s.
Proof.
  revert s. induction k as [|k IH]; intros s; [reflexivity|].
  destruct s as [|c r]; [reflexivity|]. cbn [unindent].
  destruct (Z.eqb_spec (code_of c) 32) as [E|_]; [|reflexivity].
  rewrite IH. cbn [skip_spaces]. unfold is_space. rewrite E. reflexivity.
Qed.

(** The rule reads a fenced code block as fenced. *)
Lemma fenced_block_style file node :
  fenced_block file node = true ->
  current_style (contents file) node = "fenced".
Proof.
  unfold fenced_block, current_style. intros H.
  fold (source_of file node).
  rewrite fence_test_opens, <- (skip_spaces_unindent 3),
          (opens_fence_no_space _ H), H.
  rewrite orb_true_r. reflexivity.
Qed.

(** The rule reads an indented code block as indented, unless its text
    starts like a fence. *)
Lemma indented_block_style file node :
  indented_block file node = true ->
  current_style (contents file) node
  = if fence_text file node then "fenced" else "indented".
Proof.
  unfold indented_block, current_style, fence_text. intros H.
  apply andb_prop in H. destruct H as [H _].
  apply negb_true_iff in H. rewrite H. cbn [orb].
  fold (source_of file node). rewrite fence_test_opens. reflexivity.
Qed.

(** C2 (as amended).  With the option ["fenced"] or ["indented"], every
    code block with a position, the first one included, is compared
    with that style; with a number other than zero and [NaN] as the
    option, every block quote with a position and content, the first one
    included, is compared with that indentation; a diagnostic is
    produced exactly for the nodes whose style differs.  With ["fenced"]
    and a document of one fenced code block and one indented code block
    whose text does not itself start like a fence, in either order, the
    only diagnostic is "Code blocks should be fenced" on the indented
    one. *)
Theorem fixed_style_compares_every_node :
  (forall tree file p,
      p = "fenced" \/ p = "indented" ->
      codeBlockStyle tree file (OfString p)
      = Done tt
          (flat_map
             (fun node =>
                if String.eqb (current_style (contents file) node) p
                then [] else [code_warning p node])
             (code_blocks tree)))
  /\ (forall tree file (n : Number),
         n <> Integer 0 -> n <> NaN ->
         blockquoteIndentation tree file (OfNumber n)
         = Done tt
             (flat_map
                (fun node =>
                   if is_integer n (check node) then []
                   else [quote_warning n node])
                (block_quotes tree)))
  /\ (forall tree file a b,
         code_blocks tree = [a; b] \/ code_blocks tree = [b; a] ->
         indented_block file a = true ->
         fence_text file a = false ->
         fenced_block file b = true ->
         codeBlockStyle tree file (OfString "fenced")
         = Done tt
             [mkMessage "Code blocks should be fenced" (AtNode a) false]).
Proof.
  split; [|split].
  - intros. apply codeBlockStyle_fixed; assumption.
  - intros tree file n Hzero Hnan.
    rewrite blockquoteIndentation_fixed.
    + f_equal. apply List.flat_map_ext. intros node.
      unfold quote_verdict.
      destruct n as [z| |]; cbn [minus is_not_zero is_integer];
        try reflexivity.
      destruct (Z.eqb_spec (z - check node) 0) as [E|E];
        destruct (Z.eqb_spec z (check node)) as [E'|E'];
        try reflexivity; lia.
    + destruct n as [z| |]; [|reflexivity|contradiction].
      apply truthy_integer. congruence.
  - intros tree file a b Hnodes Ha Htext Hb.
    rewrite codeBlockStyle_fixed by (left; reflexivity).
    unfold code_verdict.
    pose proof (indented_block_style file a Ha) as Hstyle.
    rewrite Htext in Hstyle.
    pose proof (fenced_block_style file b Hb) as Hstyle'.
    destruct Hnodes as [-> | ->]; simpl; rewrite Hstyle, Hstyle';
      reflexivity.
Qed.

Lemma fixed_style_compares_every_node_witness :
  codeBlockStyle Sample.code_doc Sample.code_file (OfString "fenced")
  = Done tt
      [mkMessage "Code blocks should be fenced" (AtNode Sample.alpha) false].
Proof.
  apply (proj2 (proj2 fixed_style_compares_every_node)
           Sample.code_doc Sample.code_file Sample.alpha Sample.bravo).
  - left. vm_compute. reflexivity.
  - vm_compute. reflexivity.
  - vm_compute. reflexivity.
  - vm_compute. reflexivity.
Defined.

(** C2, as stated, fails for the number 0: the block quotes of
    [quote_doc] are indented by 3, 4 and 2, all different from 0, and
    the first of them produces no diagnostic. *)
Lemma zero_option_is_not_fixed :
  ~ (forall tree file (n : Z),
        blockquoteIndentation tree file (OfNumber n)
        = Done tt
            (flat_map
               (fun node =>
                  if check node =? n then [] else [quote_warning n node])
               (block_quotes tree))).
Proof.
  intros H. specialize (H Sample.quote_doc Sample.quote_file 0).
  vm_compute in H. discriminate H.
Qed.

(** X25.  [NaN] as the option is no preference.  For
    [blockquoteIndentation] it is a number and falsy, so the run is the
    run without an option; for [remarkLintMaximumHeadingLength] no
    length is greater than it, so the run is silent. *)
Theorem NaN_is_no_preference :
  forall tree file,
    blockquoteIndentation tree file (OfNumber NaN)
    = blockquoteIndentation tree file Absent
    /\ remarkLintMaximumHeadingLength tree file (OfNumber NaN) = Done tt [].
Proof.
  intros tree file. split.
  - rewrite !blockquoteIndentation_run.
    destruct (visit_list_falsy blockquoteIndentation_visitor truthy
                has_content (fun n => Integer (check n)) quote_verdict
                blockquoteIndentation_visitor_skip
                blockquoteIndentation_visitor_assign
                blockquoteIndentation_visitor_compare
                (Some NaN) None (visited tree "blockquote") eq_refl eq_refl)
      as (t & t' & ms & E & E').
    rewrite E, E'. reflexivity.
  - unfold remarkLintMaximumHeadingLength. rewrite visit_visit_list.
    induction (visited tree "heading") as [|n ns IH]; [reflexivity|].
    cbn [visit_list]. unfold maximumHeadingLength_visitor at 1.
    cbn [exceeds]. rewrite andb_false_r, bind_ret_l. exact IH.
Qed.

(** On [fence_line_doc] the indented code block holds a line of three
    backticks; the rule reads it as fenced and, with ["fenced"] as the
    option, is silent. *)
Example codeBlockStyle_fence_line :
  indented_block More.fence_line_file More.fence_line = true
  /\ fenced_block More.fence_line_file More.fenced_code = true
  /\ code_blocks More.fence_line_doc = [More.fence_line; More.fenced_code]
  /\ codeBlockStyle More.fence_line_doc More.fence_line_file
       (OfString "fenced")
     = Done tt [].
Proof. repeat split; vm_compute; reflexivity. Qed.

(** C9.  [blockquoteIndentation] with the number 0 as its option
    produces, on every document, what it produces without an option and
    with ["consistent"]: 0 is not a preferred indentation, the first
    block quote with a position and content sets it. *)
Theorem blockquoteIndentation_zero_is_consistent :
  forall tree file,
    blockquoteIndentation tree file (OfNumber 0)
    = blockquoteIndentation tree file Absent
    /\ blockquoteIndentation tree file (OfNumber 0)
       = blockquoteIndentation tree file (OfString "consistent").
Proof.
  intros tree file. rewrite !blockquoteIndentation_run.
  destruct (visit_list_falsy blockquoteIndentation_visitor truthy
              has_content (fun n => Integer (check n)) quote_verdict
              blockquoteIndentation_visitor_skip
              blockquoteIndentation_visitor_assign
              blockquoteIndentation_visitor_compare
              (Some (Integer 0)) None (visited tree "blockquote")
              eq_refl eq_refl)
    as (t & t' & ms & E & E').
  rewrite E, E'. split; reflexivity.
Qed.

(* ================================================================== *)
(** * Generated nodes *)
(* ================================================================== *)

Lemma maximumHeadingLength_visitor_skip preferred n s :
  not_generated n = false -> maximumHeadingLength_visitor preferred n s = ret s.
Proof.
  unfold not_generated, maximumHeadingLength_visitor. intros H.
  destruct (generated n); [destruct s; reflexivity|discriminate].
Qed.

Lemma noDuplicateHeadings_visitor_skip n s :
  not_generated n = false -> noDuplicateHeadings_visitor n s = ret s.
Proof.
  unfold not_generated, noDuplicateHeadings_visitor. intros H.
  destruct (generated n); [reflexivity|discriminate].
Qed.

Lemma checkboxContentIndent_visitor_skip file n s :
  not_generated n = false -> checkboxContentIndent_visitor file n s = ret s.
Proof.
  unfold not_generated, checkboxContentIndent_visitor. intros H.
  destruct (generated n); [|discriminate].
  rewrite orb_true_r. destruct s; reflexivity.
Qed.

Lemma blockquoteIndentation_visitor_skip_generated n s :
  not_generated n = false -> blockquoteIndentation_visitor n s = ret s.
Proof.
  unfold not_generated. intros H. apply blockquoteIndentation_visitor_skip.
  unfold has_content. destruct (generated n); [reflexivity|discriminate].
Qed.

(** Restrict both runs of a visitor to the nodes with a position, which
    the two trees share. *)
Ltac only_positioned skip same :=
  match type of same with
  | List.filter _ ?l = List.filter _ ?l' =>
      rewrite (visit_list_filter not_generated _ skip l),
              (visit_list_filter not_generated _ skip l'), same;
      reflexivity
  end.

(** A rule run is the rule body over the nodes the walker visits. *)
Lemma lint_unfold rule tree file option_ :
  lint rule tree file option_
  = match rule with
    | CodeBlockStyle =>
        let preferred :=
          match option_ with
          | OfString s =>
              if negb (String.eqb s "consistent") then Some s else None
          | _ => None
          end in
        do (if negb (is_true_at styles preferred)
            then fail (reason (incorrect_style (string_of preferred)))
            else ret tt)
        then
        do visit_list (codeBlockStyle_visitor (contents file))
             (visited tree "code") preferred
        then ret tt
    | BlockquoteIndentation =>
        do visit_list blockquoteIndentation_visitor
             (visited tree "blockquote")
             (match option_ with OfNumber n => Some n | _ => None end)
        then ret tt
    | MaximumHeadingLength =>
        visit_list
          (maximumHeadingLength_visitor
             (match option_ with OfNumber n => n | _ => Integer 60 end))
          (visited tree "heading") tt
    | NoDuplicateHeadings =>
        do visit_list noDuplicateHeadings_visitor (visited tree "heading") ∅
        then ret tt
    | CheckboxContentIndent =>
        visit_list (checkboxContentIndent_visitor file)
          (visited tree "listItem") tt
    end.
Proof.
  destruct rule; cbn [lint];
    unfold codeBlockStyle, blockquoteIndentation,
      remarkLintMaximumHeadingLength, remarkLintNoDuplicateHeadings,
      remarkLintCheckboxContentIndent;
    rewrite visit_visit_list; reflexivity.
Qed.

Lemma messages_of_bind {A B} (P : VFileMessage -> Prop) (m : Lint A)
    (k : A -> Lint B) :
  Forall P (messages_of m) ->
  (forall a, Forall P (messages_of (k a))) ->
  Forall P (messages_of (bind m k)).
Proof.
  intros Hm Hk. destruct m as [a ms|ms]; simpl in *; [|assumption].
  specialize (Hk a). destruct (k a); simpl in *; apply Forall_app; auto.
Qed.

Lemma messages_of_ret {A} (P : VFileMessage -> Prop) (a : A) :
  Forall P (messages_of (ret a)).
Proof. constructor. Qed.

Lemma messages_of_message (P : VFileMessage -> Prop) text where_ :
  P (mkMessage text where_ false) ->
  Forall P (messages_of (message text where_)).
Proof. intros H. repeat constructor. exact H. Qed.

(** C3.  [blockquoteIndentation] tests the block quote it visits with
    [generated], not the first child, at whose start it reports.  So a
    block quote with a position whose first child has none (a child put
    in by a transform) is measured from column 0 and, when that is not
    the preferred indentation, reported at the start point of the
    generated child: a point without line, column and offset. *)
Theorem generated_child_is_reported :
  forall tree file (n : Z) quote child rest,
    In quote (block_quotes tree) ->
    children quote = child :: rest ->
    position child = None ->
    n <> 0 ->
    n <> check quote ->
    generated child = true
    /\ pointStart (Some child) = undefined_point
    /\ In (mkMessage (reason (quote_warning n quote))
             (AtPoint (pointStart (Some child))) false)
         (messages_of (blockquoteIndentation tree file (OfNumber n))).
Proof.
  intros tree file n quote child rest Hin Hchildren Hchild Hn Hcheck.
  split; [unfold generated; rewrite Hchild; reflexivity|].
  split; [unfold pointStart; cbn [mbind option_bind]; rewrite Hchild;
          reflexivity|].
  rewrite blockquoteIndentation_fixed by (apply truthy_integer; exact Hn).
  cbn [messages_of]. apply List.in_flat_map. exists quote.
  split; [exact Hin|]. rewrite quote_verdict_integer.
  destruct (Z.eqb_spec (check quote) n) as [E|_]; [congruence|].
  left. unfold quote_warning. rewrite Hchildren. reflexivity.
Qed.

Lemma generated_child_is_reported_witness :
  generated (Sample.parent "paragraph" None [Sample.text None "Note"]) = true
  /\ pointStart
       (Some (Sample.parent "paragraph" None [Sample.text None "Note"]))
     = undefined_point
  /\ In (mkMessage "Add 3 spaces between block quote and content"
           (AtPoint
              (pointStart
                 (Some (Sample.parent "paragraph" None
                          [Sample.text None "Note"]))))
           false)
       (messages_of
          (blockquoteIndentation More.titled_doc More.titled_file
             (OfNumber 2))).
Proof.
  apply (generated_child_is_reported More.titled_doc More.titled_file 2
           More.titled_quote
           (Sample.parent "paragraph" None [Sample.text None "Note"]) []).
  - vm_compute. left. reflexivity.
  - reflexivity.
  - reflexivity.
  - lia.
  - vm_compute. discriminate.
Defined.

(** The output of the rule on [titled_doc]. *)
Example blockquoteIndentation_titled :
  blockquoteIndentation More.titled_doc More.titled_file (OfNumber 2)
  = Done tt
      [mkMessage "Add 3 spaces between block quote and content"
         (AtPoint undefined_point) false].
Proof. vm_compute. reflexivity. Qed.

(** X23.  For each of the five rules, the nodes of the visited kind
    that are generated do not count: the outcome of a run (the
    diagnostics, and whether it ended in [fail]) is the same on two
    trees that agree on their visited nodes with a position. *)
Theorem runs_agree_on_positioned_nodes :
  forall rule file option_ tree tree',
    List.filter not_generated (visited tree (kind_of rule))
    = List.filter not_generated (visited tree' (kind_of rule)) ->
    lint rule tree file option_ = lint rule tree' file option_.
Proof.
  intros rule file option_ tree tree' Hsame. rewrite !lint_unfold.
  destruct rule; cbn [kind_of] in Hsame; cbv zeta.
  - only_positioned (codeBlockStyle_visitor_skip (contents file)) Hsame.
  - only_positioned blockquoteIndentation_visitor_skip_generated Hsame.
  - only_positioned
      (maximumHeadingLength_visitor_skip
         (match option_ with OfNumber n => n | _ => Integer 60 end)) Hsame.
  - only_positioned noDuplicateHeadings_visitor_skip Hsame.
  - only_positioned (checkboxContentIndent_visitor_skip file) Hsame.
Qed.

Lemma runs_agree_on_positioned_nodes_witness :
  lint CodeBlockStyle Sample.inserted_doc Sample.code_file Absent
  = lint CodeBlockStyle Sample.code_doc Sample.code_file Absent.
Proof.
  apply (runs_agree_on_positioned_nodes CodeBlockStyle Sample.code_file
           Absent Sample.inserted_doc Sample.code_doc).
  vm_compute. reflexivity.
Defined.

(* ================================================================== *)
(** * The option of code-block-style *)
(* ================================================================== *)

(** A string that is none of [consistent], [fenced], [indented] and
    [null] is rejected before the tree is walked: the run ends in
    [fail] with the one fatal message, whatever the tree. *)
Lemma codeBlockStyle_rejects tree file s :
  s <> "consistent" -> s <> "fenced" -> s <> "indented" -> s <> "null" ->
  codeBlockStyle tree file (OfString s) = Thrown [incorrect_style s].
Proof.
  intros Hc Hf Hi Hn. unfold codeBlockStyle.
  destruct (String.eqb_spec s "consistent") as [|_]; [contradiction|].
  cbn [negb].
  destruct (is_true_at styles (Some s)) eqn:E.
  - apply styles_true in E. cbn in E. intuition congruence.
  - reflexivity.
Qed.

(** The output listed for [not-ok-incorrect.md]. *)
Example codeBlockStyle_not_ok_incorrect :
  codeBlockStyle Sample.empty_doc Sample.empty_file (OfString "💩")
  = Thrown
      [mkMessage
         "Incorrect code block style `💩`: use either `'consistent'`, `'fenced'`, or `'indented'`"
         Nowhere true].
Proof. apply codeBlockStyle_rejects; discriminate. Qed.

(** C4.  The string ["null"] is none of the three legal values, and
    [codeBlockStyle] does not reject it: on every document the run
    completes, with "Code blocks should be null" on every code block
    that has a position; so on [code_doc]. *)
Theorem codeBlockStyle_accepts_null :
  (forall tree file,
      codeBlockStyle tree file (OfString "null")
      = Done tt (map (code_warning "null") (code_blocks tree)))
  /\ codeBlockStyle Sample.code_doc Sample.code_file (OfString "null")
     = Done tt
         [mkMessage "Code blocks should be null" (AtNode Sample.alpha) false;
          mkMessage "Code blocks should be null" (AtNode Sample.bravo) false].
Proof.
  split; [|vm_compute; reflexivity].
  intros tree file.
  rewrite (codeBlockStyle_accepted tree file (OfString "null") (Some "null"));
    [|reflexivity|apply styles_true; left; reflexivity].
  rewrite (visit_list_fixed (codeBlockStyle_visitor (contents file))
             truthy_string not_generated
             (code_verdict file)
             (codeBlockStyle_visitor_skip _)
             (codeBlockStyle_visitor_compare file)) by reflexivity.
  simpl. rewrite app_nil_r. f_equal. fold (code_blocks tree).
  induction (code_blocks tree) as [|n ns IH]; [reflexivity|].
  cbn [flat_map map]. rewrite IH. unfold code_verdict.
  destruct (current_style_cases (contents file) n) as [-> | ->]; reflexivity.
Qed.

(* ================================================================== *)
(** * Documents without a matching node *)
(* ================================================================== *)

(** C5 (as amended).  On a tree without a node of the kind the rule
    visits, a rule produces no diagnostic, whatever the option; for
    [codeBlockStyle] this is so for the options it documents. *)
Theorem no_matching_node_no_diagnostic :
  forall rule tree file option_,
    visited tree (kind_of rule) = [] ->
    (rule = CodeBlockStyle -> legal_style option_) ->
    lint rule tree file option_ = Done tt [].
Proof.
  intros rule tree file option_ Hnone Hlegal. rewrite lint_unfold.
  destruct rule; cbn [kind_of] in Hnone; rewrite Hnone; cbv zeta;
    try reflexivity.
  specialize (Hlegal eq_refl).
  destruct option_ as [|s|n|]; try reflexivity.
  destruct Hlegal as [-> | [-> | ->]]; reflexivity.
Qed.

Lemma no_matching_node_no_diagnostic_witness :
  lint CodeBlockStyle Sample.quote_doc Sample.quote_file (OfString "fenced")
  = Done tt [].
Proof.
  apply no_matching_node_no_diagnostic.
  - vm_compute. reflexivity.
  - intros _. right. left. reflexivity.
Defined.

(** C5, as stated, fails: [codeBlockStyle] with an option it rejects
    produces the fatal diagnostic on a document without any node. *)
Lemma rejected_option_reports_without_nodes :
  ~ (forall rule tree file option_,
        visited tree (kind_of rule) = [] ->
        messages_of (lint rule tree file option_) = []).
Proof.
  intros H.
  specialize (H CodeBlockStyle Sample.empty_doc Sample.empty_file
                (OfString "tilde") eq_refl).
  vm_compute in H. discriminate H.
Qed.

(* ================================================================== *)
(** * maximum-heading-length *)
(* ================================================================== *)

Lemma maximumHeadingLength_run tree file option_ :
  remarkLintMaximumHeadingLength tree file option_
  = Done tt
      (flat_map
         (length_verdict
            (match option_ with OfNumber n => n | _ => Integer 60 end))
         (headings tree)).
Proof.
  unfold remarkLintMaximumHeadingLength, headings.
  rewrite visit_visit_list.
  rewrite (visit_list_filter not_generated _
             (maximumHeadingLength_visitor_skip _)).
  generalize (filter_keeps not_generated (visited tree "heading")).
  induction 1 as [|n ns Hn _ IH]; [reflexivity|].
  cbn [visit_list flat_map].
  unfold maximumHeadingLength_visitor at 1, length_verdict at 1.
  unfold not_generated in Hn. rewrite Hn. cbn [andb].
  destruct (exceeds _ _); unfold message, ret, bind; rewrite IH;
    reflexivity.
Qed.

(** C6.  With the option 40, the diagnostics of
    [remarkLintMaximumHeadingLength] are the verdicts on the headings
    that have a position, in order; the verdict on a heading whose
    plain text has length 52 is the one diagnostic "Use headings shorter
    than `40`" on that heading, and the verdict on a heading of length
    at most 40 is empty. *)
Theorem maximum_heading_length_40 :
  (forall tree file,
      remarkLintMaximumHeadingLength tree file (OfNumber 40)
      = Done tt (flat_map (length_verdict 40) (headings tree)))
  /\ (forall node,
         String.length (toString node) = 52%nat ->
         length_verdict 40 node
         = [mkMessage "Use headings shorter than `40`" (AtNode node) false])
  /\ (forall node,
         (String.length (toString node) <= 40)%nat ->
         length_verdict 40 node = []).
Proof.
  split; [|split].
  - intros. apply maximumHeadingLength_run.
  - intros node Hlen. unfold length_verdict. rewrite Hlen. reflexivity.
  - intros node Hlen. unfold length_verdict. cbn [exceeds].
    destruct (Z.ltb_spec 40 (Z.of_nat (String.length (toString node))));
      [lia|reflexivity].
Qed.

Lemma maximum_heading_length_40_witness :
  length_verdict 40 Sample.long_heading
  = [mkMessage "Use headings shorter than `40`"
       (AtNode Sample.long_heading) false]
  /\ length_verdict 40 Sample.short_heading = [].
Proof.
  split.
  - apply (proj1 (proj2 maximum_heading_length_40)). vm_compute. reflexivity.
  - apply (proj2 (proj2 maximum_heading_length_40)). vm_compute. lia.
Defined.

(* ================================================================== *)
(** * no-duplicate-headings *)
(* ================================================================== *)

Lemma upper_units_same_letter c d :
  same_letter c d -> upper_units c = upper_units d.
Proof.
  assert (Hup : forall x y,
             is_small x -> code_of y = code_of x - 32 ->
             upper_units x = upper_units y).
  { intros x y Hx Hy. unfold upper_units, is_small in *. rewrite Hy.
    generalize dependent (code_of x). intros n Hy Hn.
    repeat match goal with
           | |- context [?a <=? ?b] => destruct (Z.leb_spec a b)
           | |- context [?a =? ?b] => destruct (Z.eqb_spec a b)
           end; cbn [andb negb]; try reflexivity; lia. }
  intros [-> | [[Hc Hd] | [Hd Hc]]]; [reflexivity| |symmetry]; eauto.
Qed.

Lemma toUpperCase_same_letters s t :
  same_letters s t -> toUpperCase s = toUpperCase t.
Proof.
  revert t. induction s as [|c s IH]; intros [|d t]; simpl; try tauto.
  intros [Hcd Hst]. rewrite (upper_units_same_letter _ _ Hcd), (IH _ Hst).
  reflexivity.
Qed.

Lemma noDuplicateHeadings_visitor_step map seen b :
  not_generated b = true ->
  map_of_seen map seen ->
  noDuplicateHeadings_visitor b map
  = Done (<[normalized b := b]> map)
      (match most_recent seen b with
       | Some a => [similar_warning a b]
       | None => []
       end)
    /\ map_of_seen (<[normalized b := b]> map) (b :: seen).
Proof.
  intros Hb Hmap. split.
  - unfold noDuplicateHeadings_visitor, not_generated in *. rewrite Hb.
    fold (normalized b). rewrite (Hmap (normalized b)).
    unfold most_recent. destruct (List.find _ seen); reflexivity.
  - intros key. rewrite lookup_insert. cbn [List.find].
    destruct (decide (normalized b = key)) as [E|Hne].
    + rewrite bool_decide_eq_true_2 by exact E. reflexivity.
    + rewrite bool_decide_eq_false_2 by exact Hne. apply Hmap.
Qed.

Lemma noDuplicateHeadings_list nodes :
  Forall (fun n => not_generated n = true) nodes ->
  forall map seen,
    map_of_seen map seen ->
    exists map',
      visit_list noDuplicateHeadings_visitor nodes map
      = Done map' (similar_headings seen nodes).
Proof.
  induction 1 as [|b nodes Hb _ IH]; intros map seen Hmap.
  - exists map. reflexivity.
  - destruct (noDuplicateHeadings_visitor_step map seen b Hb Hmap)
      as [Hstep Hmap'].
    destruct (IH _ _ Hmap') as [map' Hrest]. exists map'.
    cbn [visit_list similar_headings]. rewrite Hstep. simpl.
    rewrite Hrest. reflexivity.
Qed.

(** The run of the rule is [similar_headings] on the headings that
    have a position. *)
Lemma noDuplicateHeadings_run tree file option_ :
  remarkLintNoDuplicateHeadings tree file option_
  = Done tt (similar_headings [] (headings tree)).
Proof.
  unfold remarkLintNoDuplicateHeadings, headings.
  rewrite visit_visit_list.
  rewrite (visit_list_filter not_generated _ noDuplicateHeadings_visitor_skip).
  destruct (noDuplicateHeadings_list _
              (filter_keeps not_generated (visited tree "heading")) ∅ [])
    as [map' Hrun].
  - intros key. apply lookup_empty.
  - rewrite Hrun. simpl. rewrite app_nil_r. reflexivity.
Qed.

Lemma similar_headings_app seen earlier later :
  similar_headings seen (earlier ++ later)
  = similar_headings seen earlier
    ++ similar_headings (rev earlier ++ seen) later.
Proof.
  revert seen. induction earlier as [|b earlier IH]; intros seen;
    [reflexivity|].
  cbn [app similar_headings rev]. rewrite IH, <- !app_assoc. reflexivity.
Qed.

Lemma most_recent_skips recent a older b :
  normalized a = normalized b ->
  Forall (fun c => normalized c <> normalized b) recent ->
  most_recent (recent ++ a :: older) b = Some a.
Proof.
  intros Hab Hrecent. unfold most_recent.
  induction Hrecent as [|c recent Hc _ IH]; cbn [app List.find].
  - rewrite bool_decide_eq_true_2 by exact Hab. reflexivity.
  - rewrite bool_decide_eq_false_2 by exact Hc. exact IH.
Qed.

Lemma most_recent_found seen a b :
  In a seen -> normalized a = normalized b ->
  exists a', most_recent seen b = Some a' /\ normalized a' = normalized b.
Proof.
  intros Hin Hab. unfold most_recent.
  destruct (List.find _ seen) as [a'|] eqn:E.
  - exists a'. split; [reflexivity|].
    apply List.find_some in E. destruct E as [_ E].
    apply bool_decide_eq_true_1 in E. exact E.
  - exfalso. pose proof (List.find_none _ _ E a Hin) as Hnone.
    cbv beta in Hnone.
    rewrite bool_decide_eq_true_2 in Hnone by exact Hab. discriminate.
Qed.

(** C7 (as amended).  Without an option, on a document whose headings
    with a position are, in order, one with the text "Foo", a second
    with the text "Foo" and a third whose text in upper case is not
    "FOO", the rule produces exactly one diagnostic: it is attached to
    the second heading and its message names the start of the first. *)
Theorem foo_foo_other_reports_second :
  forall tree file h1 h2 h3,
    headings tree = [h1; h2; h3] ->
    toString h1 = "Foo" ->
    toString h2 = "Foo" ->
    toUpperCase (toString h3) <> "FOO" ->
    remarkLintNoDuplicateHeadings tree file Absent
    = Done tt
        [mkMessage ("Do not use headings with similar content ("
                    +:+ stringifyPosition (pointStart (Some h1)) +:+ ")")
           (AtNode h2) false].
Proof.
  intros tree file h1 h2 h3 Hnodes H1 H2 H3.
  rewrite noDuplicateHeadings_run, Hnodes.
  assert (N1 : normalized h1 = units "FOO")
    by (unfold normalized; rewrite H1; reflexivity).
  assert (N2 : normalized h2 = units "FOO")
    by (unfold normalized; rewrite H2; reflexivity).
  fold (normalized h3) in H3.
  cbn [similar_headings]. unfold most_recent. cbn [List.find].
  rewrite N1, N2.
  rewrite (bool_decide_eq_true_2 (units "FOO" = units "FOO")) by reflexivity.
  rewrite (bool_decide_eq_false_2 (units "FOO" = normalized h3))
    by congruence.
  reflexivity.
Qed.

Lemma foo_foo_other_reports_second_witness :
  remarkLintNoDuplicateHeadings Sample.foo_bar_doc Sample.heading_file Absent
  = Done tt
      [mkMessage "Do not use headings with similar content (1:1)"
         (AtNode Sample.foo2) false].
Proof.
  apply (foo_foo_other_reports_second Sample.foo_bar_doc Sample.heading_file
           Sample.foo1 Sample.foo2 Sample.bar3).
  - vm_compute. reflexivity.
  - vm_compute. reflexivity.
  - vm_compute. reflexivity.
  - vm_compute. discriminate.
Defined.

(** C7, as stated, fails when the third text is distinct from "Foo"
    only by letter case: on the headings "Foo", "Foo", "foo" the rule
    produces two diagnostics. *)
Lemma third_heading_in_other_case :
  ~ (forall tree file h1 h2 h3,
        headings tree = [h1; h2; h3] ->
        toString h1 = "Foo" ->
        toString h2 = "Foo" ->
        toString h3 <> "Foo" ->
        remarkLintNoDuplicateHeadings tree file Absent
        = Done tt
            [mkMessage ("Do not use headings with similar content ("
                        +:+ stringifyPosition (pointStart (Some h1)) +:+ ")")
               (AtNode h2) false]).
Proof.
  intros H.
  specialize (H Sample.lower_doc Sample.heading_file
                Sample.foo1 Sample.foo2 Sample.lower3 eq_refl eq_refl eq_refl).
  assert (Hne : toString Sample.lower3 <> "Foo") by (vm_compute; discriminate).
  specialize (H Hne). vm_compute in H. discriminate H.
Qed.

(** C10.  The rule compares the plain text of headings in upper case.
    Its diagnostics are [similar_headings] on the headings with a
    position.  When a heading [b] follows a heading [a] whose text
    differs from its own only in letter case, [b] is reported, with a
    reference to a heading of the same normalized content; and when no
    heading between [a] and [b] has that content, the diagnostic on [b]
    refers to [a], whatever came before [a]. *)
Theorem duplicate_headings_ignore_case :
  forall tree file option_,
    remarkLintNoDuplicateHeadings tree file option_
    = Done tt (similar_headings [] (headings tree))
    /\ (forall earlier a between b later,
           headings tree = earlier ++ a :: between ++ b :: later ->
           same_letters (toString a) (toString b) ->
           exists a',
             normalized a' = normalized b
             /\ In (similar_warning a' b)
                  (messages_of
                     (remarkLintNoDuplicateHeadings tree file option_)))
    /\ (forall earlier a between b later,
           headings tree = earlier ++ a :: between ++ b :: later ->
           same_letters (toString a) (toString b) ->
           Forall (fun c => normalized c <> normalized b) between ->
           remarkLintNoDuplicateHeadings tree file option_
           = Done tt
               (similar_headings [] (earlier ++ a :: between)
                ++ similar_warning a b
                   :: similar_headings (b :: rev (earlier ++ a :: between))
                        later)).
Proof.
  intros tree file option_.
  split; [apply noDuplicateHeadings_run|]. split.
  - intros earlier a between b later Hnodes Hab.
    apply toUpperCase_same_letters in Hab. fold (normalized a) in Hab.
    fold (normalized b) in Hab.
    rewrite noDuplicateHeadings_run, Hnodes.
    replace (earlier ++ a :: between ++ b :: later)
      with ((earlier ++ a :: between) ++ b :: later)
      by (rewrite <- app_assoc; reflexivity).
    rewrite similar_headings_app, app_nil_r. cbn [similar_headings].
    destruct (most_recent_found (rev (earlier ++ a :: between)) a b)
      as (a' & Hfound & Hsame); [|exact Hab|].
    { apply List.in_rev. rewrite List.rev_involutive.
      apply List.in_or_app. right. left. reflexivity. }
    exists a'. split; [exact Hsame|]. rewrite Hfound. cbn [messages_of].
    apply List.in_or_app. right. left. reflexivity.
  - intros earlier a between b later Hnodes Hab Hbetween.
    apply toUpperCase_same_letters in Hab. fold (normalized a) in Hab.
    fold (normalized b) in Hab.
    rewrite noDuplicateHeadings_run, Hnodes.
    replace (earlier ++ a :: between ++ b :: later)
      with ((earlier ++ a :: between) ++ b :: later)
      by (rewrite <- app_assoc; reflexivity).
    rewrite similar_headings_app, app_nil_r. cbn [similar_headings].
    replace (rev (earlier ++ a :: between))
      with (rev between ++ a :: rev earlier) at 1.
    + rewrite (most_recent_skips _ a _ b Hab); [reflexivity|].
      apply List.Forall_rev. exact Hbetween.
    + rewrite List.rev_app_distr. cbn [rev]. rewrite <- app_assoc.
      reflexivity.
Qed.

Lemma duplicate_headings_ignore_case_witness :
  remarkLintNoDuplicateHeadings More.cafe_doc More.cafe_file Absent
  = Done tt
      (similar_headings [] [More.cafe1]
       ++ similar_warning More.cafe1 More.cafe2
          :: similar_headings [More.cafe2; More.cafe1] []).
Proof.
  apply (proj2 (proj2 (duplicate_headings_ignore_case More.cafe_doc
                         More.cafe_file Absent))
           [] More.cafe1 [] More.cafe2 []).
  - vm_compute. reflexivity.
  - change (same_letters ("Caf" +:+ More.e_acute) ("CAF" +:+ More.E_acute)).
    repeat split.
    + left. reflexivity.
    + right. left. vm_compute. intuition discriminate.
    + right. left. vm_compute. intuition discriminate.
    + right. left. vm_compute. intuition discriminate.
  - constructor.
Defined.

(** The rule on [cafe_doc]: the heading in capitals repeats the one
    before it. *)
Example noDuplicateHeadings_accented :
  remarkLintNoDuplicateHeadings More.cafe_doc More.cafe_file Absent
  = Done tt
      [mkMessage "Do not use headings with similar content (1:1)"
         (AtNode More.cafe2) false].
Proof. vm_compute. reflexivity. Qed.

(** Where the upper-case form leaves the code units below 256, and
    where it is longer than the text. *)
Example toUpperCase_wide :
  toUpperCase (String (ascii_of_nat 255) EmptyString) = [376]
  /\ toUpperCase (String (ascii_of_nat 181) EmptyString) = [924]
  /\ toUpperCase (String (ascii_of_nat 223) EmptyString) = [83; 83]
  /\ toUpperCase (String (ascii_of_nat 247) EmptyString) = [247].
Proof. repeat split. Qed.

(* ================================================================== *)
(** * Order of the diagnostics *)
(* ================================================================== *)



Lemma laid_out_unfold hi lo tree :
  laid_out hi lo tree = true ->
  exists s e,
    start_of tree = Some s /\ end_of tree = Some e
    /\ lo <= s /\ s <= e /\ e <= hi
    /\ in_sequence (laid_out e) s (children tree) = true.
Proof.
  destruct tree as [t p cs v a l c]. cbn [laid_out children].
  destruct (start_of _) as [s|]; [|discriminate].
  destruct (end_of _) as [e|]; [|discriminate].
  rewrite !andb_true_iff, !Z.leb_le. intros [[[? ?] ?] ?].
  exists s, e. repeat split; assumption.
Qed.

(** What a key must satisfy for [preorder] to list it in rising order:
    it lies in the span of the node, and not after the start of the
    first child. *)
Section Layout.
Variable key : Node -> Z.

Hypothesis key_leaf :
  forall n s e,
    start_of n = Some s -> end_of n = Some e -> s <= e ->
    children n = [] -> s <= key n <= e.
Hypothesis key_parent :
  forall n c cs s s',
    start_of n = Some s -> children n = c :: cs ->
    start_of c = Some s' -> s <= s' -> s <= key n <= s'.



End Layout.




Lemma laid_out_placed tree :
  forall hi lo,
    0 <= lo -> laid_out hi lo tree = true ->
    well_placed tree /\ Forall placed (preorder tree).
Proof.
  induction tree as [n IH] using Node_children_ind. intros hi lo Hlo0 Hn.
  destruct (laid_out_unfold _ _ _ Hn)
    as (s & e & Hs & He & Hlo & Hse & Hhi & Hcs).
  assert (Hn' : well_placed n) by (exists s, e; repeat split; auto; lia).
  assert (Hseq : forall cs from,
             Forall (fun c => forall hi lo, 0 <= lo ->
                       laid_out hi lo c = true ->
                       well_placed c /\ Forall placed (preorder c)) cs ->
             0 <= from ->
             in_sequence (laid_out e) from cs = true ->
             Forall well_placed cs
             /\ Forall placed (flat_map preorder cs)).
  { intros cs. induction cs as [|c cs IHcs]; intros from Hall Hfrom Hin.
    - split; constructor.
    - inversion Hall as [|? ? Hc Hall']; subst.
      cbn [in_sequence] in Hin. apply andb_true_iff in Hin.
      destruct Hin as [Hin1 Hin2].
      destruct (Hc _ _ Hfrom Hin1) as [Hwc Hpc].
      destruct Hwc as (s' & e' & Hs' & He' & Hpos).
      rewrite He' in Hin2.
      destruct (IHcs e' Hall' ltac:(lia) Hin2) as [Hw Hp].
      split.
      + constructor; [exists s', e'; auto|exact Hw].
      + cbn [flat_map]. apply Forall_app. split; assumption. }
  destruct (Hseq _ s IH ltac:(lia) Hcs) as [Hw Hp].
  split; [exact Hn'|]. rewrite preorder_unfold. constructor; [|exact Hp].
  split; [exact Hn'|].
  destruct (children n) as [|c cs]; [exact I|].
  inversion Hw; assumption.
Qed.


Lemma messages_of_bind_app {A B} (m : Lint A) (k : A -> Lint B) :
  messages_of (bind m k)
  = messages_of m
    ++ match m with Done a _ => messages_of (k a) | Thrown _ => [] end.
Proof.
  destruct m as [a ms|ms]; simpl; [|rewrite app_nil_r; reflexivity].
  destruct (k a); reflexivity.
Qed.



Lemma pointStart_offset c s :
  start_of c = Some s -> 0 <= s -> offset (pointStart (Some c)) = Some s.
Proof.
  unfold start_of, pointStart. cbn [mbind option_bind].
  destruct (position c) as [p|]; [|discriminate]. cbn [mbind option_bind].
  destruct (start p) as [pt|]; [|discriminate]. cbn [mbind option_bind].
  intros Ho Hs. unfold clean_point. cbn [offset]. rewrite Ho.
  destruct (Z.ltb_spec (-1) s); [reflexivity|lia].
Qed.

Lemma pointEnd_offset c e :
  end_of c = Some e -> 0 <= e -> offset (pointEnd (Some c)) = Some e.
Proof.
  unfold end_of, pointEnd. cbn [mbind option_bind].
  destruct (position c) as [p|]; [|discriminate]. cbn [mbind option_bind].
  destruct (end_ p) as [pt|]; [|discriminate]. cbn [mbind option_bind].
  intros Ho He. unfold clean_point. cbn [offset]. rewrite Ho.
  destruct (Z.ltb_spec (-1) e); [reflexivity|lia].
Qed.

Lemma substring_nothing n s : String.substring n 0 s = EmptyString.
Proof.
  revert s. induction n as [|n IH]; intros [|c s]; simpl; auto.
Qed.

Lemma from_index_end s i :
  Z.of_nat (String.length s) <= i -> from_index s i = EmptyString.
Proof.
  intros Hi. unfold from_index. destruct (i <? 0); [reflexivity|].
  replace (String.length s - Z.to_nat i)%nat with 0%nat by lia.
  apply substring_nothing.
Qed.

Lemma line_indices_cons c r i :
  line_indices (String c r) i
  = if code_of c =? 13 then
      match r with
      | String c' r' =>
          if code_of c' =? 10 then (i + 2) :: line_indices r' (i + 2)
          else (i + 1) :: line_indices r (i + 1)
      | EmptyString => (i + 1) :: line_indices r (i + 1)
      end
    else if code_of c =? 10 then (i + 1) :: line_indices r (i + 1)
    else line_indices r (i + 1).
Proof. reflexivity. Qed.

Lemma line_indices_last s :
  (forall i, In (i + Z.of_nat (String.length s) + 1) (line_indices s i))
  /\ (forall c i,
         In (i + Z.of_nat (String.length (String c s)) + 1)
           (line_indices (String c s) i)).
Proof.
  induction s as [|c s [IH1 IH2]].
  - split.
    + intros i. left. simpl. lia.
    + intros c i. cbn [line_indices String.length].
      destruct (code_of c =? 13); [|destruct (code_of c =? 10)].
      * right. left. lia.
      * right. left. lia.
      * left. lia.
  - split; [exact (IH2 c)|]. intros c' i.
    rewrite line_indices_cons. cbn [String.length].
    destruct (code_of c' =? 13).
    + destruct (code_of c =? 10).
      * right. specialize (IH1 (i + 2)).
        replace (i + Z.of_nat (S (S (String.length s))) + 1)
          with (i + 2 + Z.of_nat (String.length s) + 1) by lia.
        exact IH1.
      * right. specialize (IH2 c (i + 1)). cbn [String.length] in IH2.
        replace (i + Z.of_nat (S (S (String.length s))) + 1)
          with (i + 1 + Z.of_nat (S (String.length s)) + 1) by lia.
        exact IH2.
    + assert (Hgoal : In (i + Z.of_nat (S (S (String.length s))) + 1)
                        (line_indices (String c s) (i + 1))).
      { specialize (IH2 c (i + 1)). cbn [String.length] in IH2.
        replace (i + Z.of_nat (S (S (String.length s))) + 1)
          with (i + 1 + Z.of_nat (S (String.length s)) + 1) by lia.
        exact IH2. }
      destruct (code_of c' =? 10); [right|]; exact Hgoal.
Qed.

Lemma toPoint_from_offset indices index previous i :
  (exists x, In x indices /\ i < x) ->
  offset (toPoint_from indices index previous (Some i)) = Some i.
Proof.
  revert index previous.
  induction indices as [|x indices IH]; intros index previous (y & Hy & Hlt).
  - destruct Hy.
  - cbn [toPoint_from]. change (to_number (Some i)) with i.
    destruct (Z.ltb_spec i x); [reflexivity|].
    apply IH. exists y. split; [|exact Hlt].
    destruct Hy as [-> | Hy]; [lia|exact Hy].
Qed.

(** The position resolver gives back the offset it was asked for. *)
Lemma toPoint_offset file i :
  0 <= i <= Z.of_nat (String.length (contents file)) ->
  offset (toPoint file (Some i)) = Some i.
Proof.
  intros Hi. unfold toPoint. change (to_number (Some i)) with i.
  destruct (Z.ltb_spec (-1) i); [|lia].
  destruct (Z.ltb_spec i (Z.of_nat (String.length (contents file)) + 1));
    [|lia].
  cbn [andb]. apply toPoint_from_offset.
  exists (0 + Z.of_nat (String.length (contents file)) + 1).
  split; [apply line_indices_last|lia].
Qed.

Lemma content_point_offset n :
  placed n ->
  offset (if Z.of_nat (length (children n)) =? 0
          then pointEnd (Some n)
          else pointStart (head (children n)))
  = Some (content_start n)
  /\ 0 <= content_start n.
Proof.
  intros [(s & e & Hs & He & Hse) Hc]. unfold content_start.
  destruct (children n) as [|c cs]; cbn [length head].
  - change (Z.of_nat 0 =? 0) with true. cbv iota. rewrite He.
    change (to_number (Some e)) with e.
    split; [apply pointEnd_offset; [exact He|lia]|lia].
  - destruct Hc as (s' & e' & Hs' & He' & Hse').
    destruct (Z.eqb_spec (Z.of_nat (S (length cs))) 0); [lia|].
    rewrite Hs'. change (to_number (Some s')) with s'.
    split; [apply pointStart_offset; [exact Hs'|lia]|lia].
Qed.


Lemma messages_of_then_ret {A} (m : Lint A) :
  messages_of (do m then ret tt) = messages_of m.
Proof. destruct m; simpl; rewrite ?app_nil_r; reflexivity. Qed.


(* ================================================================== *)
(** * Failure and fatality *)
(* ================================================================== *)

Lemma visit_list_done {S} (visitor : Node -> S -> Lint S) :
  (forall n s, exists s' ms, visitor n s = Done s' ms) ->
  forall ns s, exists s' ms, visit_list visitor ns s = Done s' ms.
Proof.
  intros Hv ns. induction ns as [|n ns IH]; intros s; cbn [visit_list].
  - exists s, []. reflexivity.
  - destruct (Hv n s) as (s1 & ms1 & E1). rewrite E1.
    destruct (IH s1) as (s2 & ms2 & E2). cbn [bind]. rewrite E2.
    exists s2, (ms1 ++ ms2). reflexivity.
Qed.

Lemma visitors_return file :
  (forall n s, exists s' ms,
      codeBlockStyle_visitor (contents file) n s = Done s' ms)
  /\ (forall n s, exists s' ms,
         blockquoteIndentation_visitor n s = Done s' ms)
  /\ (forall p n s, exists s' ms,
         maximumHeadingLength_visitor p n s = Done s' ms)
  /\ (forall n s, exists s' ms,
         noDuplicateHeadings_visitor n s = Done s' ms)
  /\ (forall n s, exists s' ms,
         checkboxContentIndent_visitor file n s = Done s' ms).
Proof.
  repeat split; intros.
  - unfold codeBlockStyle_visitor.
    destruct (generated n); [eexists _, _; reflexivity|].
    destruct (truthy_string s); [|eexists _, _; reflexivity].
    destruct (differs _ _); eexists _, _; reflexivity.
  - unfold blockquoteIndentation_visitor.
    destruct (_ || _); [eexists _, _; reflexivity|].
    destruct (truthy s); [|eexists _, _; reflexivity].
    destruct (is_not_zero _); eexists _, _; reflexivity.
  - unfold maximumHeadingLength_visitor.
    destruct (_ && _); eexists _, _; reflexivity.
  - unfold noDuplicateHeadings_visitor.
    destruct (negb _); [|eexists _, _; reflexivity].
    destruct (s !! _); eexists _, _; reflexivity.
  - unfold checkboxContentIndent_visitor.
    destruct (_ || _); [eexists _, _; reflexivity|].
    destruct (negb _); [eexists _, _; reflexivity|].
    destruct (_ <? _); eexists _, _; reflexivity.
Qed.

Lemma bind_done_ret {A} (m : Lint A) :
  (exists a ms, m = Done a ms) ->
  exists ms, (do m then ret tt) = Done tt ms.
Proof.
  intros (a & ms & ->). exists ms. simpl. rewrite app_nil_r. reflexivity.
Qed.

(** X1.  [codeBlockStyle] ends in [fail] exactly for a string option
    that is none of [consistent], [fenced], [indented] and [null]; the
    tree plays no part: such an option gives the fatal diagnostic and
    nothing else on every tree, and a run that failed was given such an
    option and holds that one diagnostic. *)
Theorem codeBlockStyle_fails_on_unknown_style_only :
  forall tree file,
    (forall s,
        unknown_style s ->
        codeBlockStyle tree file (OfString s) = Thrown [incorrect_style s])
    /\ (forall option_ ms,
           codeBlockStyle tree file option_ = Thrown ms ->
           exists s,
             option_ = OfString s /\ unknown_style s
             /\ ms = [incorrect_style s]).
Proof.
  intros tree file. split.
  - intros s (Hc & Hf & Hi & Hn). apply codeBlockStyle_rejects; assumption.
  - intros option_ ms Hrun.
    assert (Haccepted : forall preferred,
               preferred
               = match option_ with
                 | OfString s =>
                     if negb (String.eqb s "consistent") then Some s else None
                 | _ => None
                 end ->
               is_true_at styles preferred = true -> False).
    { intros preferred Hp Hok.
      rewrite (codeBlockStyle_accepted tree file option_ preferred Hp Hok)
        in Hrun.
      destruct (bind_done_ret
                  (visit_list (codeBlockStyle_visitor (contents file))
                     (visited tree "code") preferred)) as (ms' & E).
      - apply visit_list_done. apply (visitors_return file).
      - rewrite E in Hrun. discriminate. }
    destruct option_ as [|s|n|];
      try (exfalso; apply (Haccepted None eq_refl styles_null)).
    destruct (String.eqb_spec s "consistent") as [->|Hc].
    { exfalso. apply (Haccepted None eq_refl styles_null). }
    destruct (is_true_at styles (Some s)) eqn:Hok.
    { exfalso. apply (Haccepted (Some s)); [|exact Hok].
      destruct (String.eqb_spec s "consistent"); [contradiction|reflexivity]. }
    assert (Hunknown : unknown_style s).
    { repeat split; [exact Hc|..]; intros ->; vm_compute in Hok;
        discriminate. }
    exists s. split; [reflexivity|]. split; [exact Hunknown|].
    destruct Hunknown as (H1 & H2 & H3 & H4).
    rewrite (codeBlockStyle_rejects tree file s H1 H2 H3 H4) in Hrun.
    injection Hrun as <-. reflexivity.
Qed.

Lemma codeBlockStyle_fails_on_unknown_style_only_witness :
  codeBlockStyle Sample.code_doc Sample.code_file (OfString "Fenced")
  = Thrown [incorrect_style "Fenced"].
Proof.
  apply (proj1 (codeBlockStyle_fails_on_unknown_style_only
                  Sample.code_doc Sample.code_file)).
  repeat split; discriminate.
Defined.

(** X2.  [blockquoteIndentation], [remarkLintMaximumHeadingLength],
    [remarkLintNoDuplicateHeadings] and [remarkLintCheckboxContentIndent]
    never end in [fail]: whatever the tree, the file and the option
    (none of them validates it), the run returns with its diagnostics. *)
Theorem only_codeBlockStyle_can_fail :
  forall rule tree file option_,
    rule <> CodeBlockStyle ->
    exists ms, lint rule tree file option_ = Done tt ms.
Proof.
  intros rule tree file option_ Hrule. rewrite lint_unfold.
  destruct (visitors_return file) as (_ & Hb & Hm & Hd & Hx).
  destruct rule; [contradiction| | | |]; cbv zeta.
  - apply bind_done_ret. apply visit_list_done. exact Hb.
  - destruct (visit_list_done _ (Hm (threshold option_))
                (visited tree "heading") tt) as ([] & ms & E).
    exists ms. exact E.
  - apply bind_done_ret. apply visit_list_done. exact Hd.
  - destruct (visit_list_done _ Hx (visited tree "listItem") tt)
      as ([] & ms & E).
    exists ms. exact E.
Qed.

Lemma only_codeBlockStyle_can_fail_witness :
  exists ms,
    lint BlockquoteIndentation Sample.quote_doc Sample.quote_file
      (OfString "tilde")
    = Done tt ms.
Proof.
  apply only_codeBlockStyle_can_fail. discriminate.
Defined.

(* ================================================================== *)
(** * Inferred and fixed preference *)
(* ================================================================== *)

Lemma flat_map_nil {A B} (f : A -> list B) (l : list A) :
  flat_map f l = [] <-> Forall (fun x => f x = []) l.
Proof.
  induction l as [|x l IH]; cbn [flat_map].
  - split; [constructor|reflexivity].
  - split.
    + intros H. apply app_eq_nil in H. destruct H as [Hx Hl].
      constructor; [exact Hx|apply IH; exact Hl].
    + intros H. inversion H as [|? ? Hx Hl]; subst.
      rewrite Hx. apply IH. exact Hl.
Qed.

Lemma code_verdict_nil file p n :
  code_verdict file p n = [] <-> current_style (contents file) n = p.
Proof.
  unfold code_verdict.
  destruct (String.eqb_spec (current_style (contents file) n) p);
    split; intros H; try reflexivity; try assumption;
    [discriminate|contradiction].
Qed.

Lemma quote_verdict_nil (p : Number) n :
  quote_verdict p n = [] <-> p = Integer (check n).
Proof.
  unfold quote_verdict.
  destruct p as [z| |]; cbn [minus is_not_zero];
    [|split; discriminate|split; discriminate].
  destruct (Z.eqb_spec (z - check n) 0) as [E|E]; cbn [negb].
  - split; [intros _; f_equal; lia|reflexivity].
  - split; [discriminate|]. intros [= H]. lia.
Qed.

Lemma truthy_number_cases (n : Number) :
  n <> Integer 0 -> n <> NaN -> truthy (Some n) = true.
Proof.
  intros Hzero Hnan. destruct n as [z| |]; [|reflexivity|contradiction].
  apply truthy_integer. congruence.
Qed.

(** X4.  Inference in [codeBlockStyle] changes nothing but where the
    preferred style comes from: in consistent mode the run is the run
    with the style of the first code block (that has a position) given
    as the option. *)
Theorem codeBlockStyle_inferred_is_fixed :
  forall tree file option_ first rest,
    consistent option_ ->
    code_blocks tree = first :: rest ->
    codeBlockStyle tree file option_
    = codeBlockStyle tree file
        (OfString (current_style (contents file) first)).
Proof.
  intros tree file option_ first rest Hc Hnodes.
  rewrite (codeBlockStyle_consistent tree file option_ first rest Hc Hnodes).
  rewrite codeBlockStyle_fixed by apply current_style_cases.
  rewrite Hnodes. cbn [flat_map].
  replace (code_verdict file (current_style (contents file) first) first)
    with (@nil VFileMessage); [reflexivity|].
  symmetry. apply code_verdict_nil. reflexivity.
Qed.

Lemma codeBlockStyle_inferred_is_fixed_witness :
  codeBlockStyle Sample.code_doc Sample.code_file Absent
  = codeBlockStyle Sample.code_doc Sample.code_file
      (OfString (current_style (contents Sample.code_file) Sample.alpha)).
Proof.
  apply (codeBlockStyle_inferred_is_fixed Sample.code_doc Sample.code_file
           Absent Sample.alpha [Sample.bravo]).
  - left. reflexivity.
  - vm_compute. reflexivity.
Defined.

(** X5.  The same for [blockquoteIndentation]: without a number as the
    option, the run is the run with the indentation of the first block
    quote (that has a position and content) given as the option, when
    that indentation is not 0. *)
Theorem blockquoteIndentation_inferred_is_fixed :
  forall tree file option_ first rest,
    (forall n, option_ <> OfNumber n) ->
    block_quotes tree = first :: rest ->
    check first <> 0 ->
    blockquoteIndentation tree file option_
    = blockquoteIndentation tree file (OfNumber (check first)).
Proof.
  intros tree file option_ first rest Hopt Hnodes Hfirst.
  rewrite (blockquoteIndentation_falsy tree file option_ first rest);
    [|destruct option_ as [| |n|]; try reflexivity;
      exfalso; apply (Hopt n); reflexivity
     |exact Hnodes|exact Hfirst].
  rewrite blockquoteIndentation_fixed by (apply truthy_integer; exact Hfirst).
  rewrite Hnodes. cbn [flat_map].
  replace (quote_verdict (check first) first) with (@nil VFileMessage);
    [reflexivity|].
  symmetry. apply quote_verdict_nil. reflexivity.
Qed.

Lemma blockquoteIndentation_inferred_is_fixed_witness :
  blockquoteIndentation Sample.quote_doc Sample.quote_file (OfString "any")
  = blockquoteIndentation Sample.quote_doc Sample.quote_file
      (OfNumber (check Sample.hello)).
Proof.
  apply (blockquoteIndentation_inferred_is_fixed Sample.quote_doc
           Sample.quote_file (OfString "any") Sample.hello
           [Sample.world; Sample.world']).
  - intros n. discriminate.
  - vm_compute. reflexivity.
  - vm_compute. discriminate.
Defined.

(** X6.  In consistent mode [codeBlockStyle] is silent exactly on the
    documents whose code blocks (that have a position) are all of one
    style. *)
Theorem codeBlockStyle_silent_iff_uniform :
  forall tree file option_,
    consistent option_ ->
    (codeBlockStyle tree file option_ = Done tt []
     <-> exists style,
           Forall (fun node => current_style (contents file) node = style)
             (code_blocks tree)).
Proof.
  intros tree file option_ Hc.
  destruct (code_blocks tree) as [|first rest] eqn:Hnodes.
  - split; [intros _; exists "fenced"; constructor|intros _].
    rewrite (codeBlockStyle_accepted tree file option_ None);
      [|symmetry; apply consistent_preferred; exact Hc|apply styles_null].
    rewrite (visit_list_none (codeBlockStyle_visitor (contents file))
               not_generated (codeBlockStyle_visitor_skip _) None _ Hnodes).
    reflexivity.
  - rewrite (codeBlockStyle_consistent tree file option_ first rest Hc Hnodes).
    split.
    + intros H. injection H as H. rewrite flat_map_nil in H.
      exists (current_style (contents file) first).
      constructor; [reflexivity|].
      eapply List.Forall_impl; [|exact H].
      intros n Hn. apply code_verdict_nil. exact Hn.
    + intros (style & H). inversion H as [|? ? Hfirst Hrest]; subst.
      f_equal. apply flat_map_nil.
      eapply List.Forall_impl; [|exact Hrest].
      intros n Hn. apply code_verdict_nil. cbv beta in Hn. congruence.
Qed.

(** X7.  With a number other than 0 and [NaN] as its option,
    [blockquoteIndentation] is silent exactly on the documents whose
    block quotes (that have a position and content) are all indented by
    that number. *)
Theorem blockquoteIndentation_silent_iff_indented :
  forall tree file (n : Number),
    n <> Integer 0 ->
    n <> NaN ->
    (blockquoteIndentation tree file (OfNumber n) = Done tt []
     <-> Forall (fun node => n = Integer (check node)) (block_quotes tree)).
Proof.
  intros tree file n Hzero Hnan.
  rewrite (blockquoteIndentation_fixed tree file n
             (truthy_number_cases n Hzero Hnan)).
  split.
  - intros H. injection H as H. rewrite flat_map_nil in H.
    eapply List.Forall_impl; [|exact H].
    intros q Hq. apply quote_verdict_nil. exact Hq.
  - intros H. f_equal. apply flat_map_nil.
    eapply List.Forall_impl; [|exact H].
    intros q Hq. apply quote_verdict_nil. exact Hq.
Qed.

Lemma codeBlockStyle_silent_iff_uniform_witness :
  codeBlockStyle More.indented_doc More.indented_file Absent = Done tt [].
Proof.
  apply (codeBlockStyle_silent_iff_uniform More.indented_doc
           More.indented_file Absent).
  - left. reflexivity.
  - exists "indented".
    change (code_blocks More.indented_doc) with [Sample.alpha; More.bravo].
    repeat constructor.
Defined.

Lemma blockquoteIndentation_silent_iff_indented_witness :
  blockquoteIndentation Sample.quote_doc Sample.quote_file (OfNumber 3)
  = Done tt []
  <-> Forall (fun node => Integer 3 = Integer (check node))
        (block_quotes Sample.quote_doc).
Proof.
  apply blockquoteIndentation_silent_iff_indented; discriminate.
Defined.

(* ================================================================== *)
(** * maximum-heading-length for every option *)
(* ================================================================== *)

Lemma length_verdict_filter preferred nodes :
  flat_map (length_verdict preferred) nodes
  = map (length_warning preferred) (List.filter (too_long preferred) nodes).
Proof.
  induction nodes as [|n ns IH]; [reflexivity|].
  cbn [flat_map List.filter]. unfold length_verdict at 1, too_long at 1.
  destruct (exceeds _ _); cbn [app map]; rewrite IH; reflexivity.
Qed.

(** X8.  Whatever the option, [remarkLintMaximumHeadingLength] reports
    one "Use headings shorter than" diagnostic on each heading that has
    a position and whose plain text is longer than the threshold, in
    document order, and nothing else; the threshold is the option when
    it is a number and 60 otherwise. *)
Theorem maximumHeadingLength_reports_the_long_headings :
  forall tree file option_,
    remarkLintMaximumHeadingLength tree file option_
    = Done tt
        (map (length_warning (threshold option_))
           (List.filter (too_long (threshold option_)) (headings tree))).
Proof.
  intros tree file option_. rewrite maximumHeadingLength_run.
  fold (threshold option_). rewrite length_verdict_filter. reflexivity.
Qed.

(** X9.  Raising the threshold never adds a diagnostic: a heading
    reported with the number [n] as the option is reported with every
    number [m] below [n]. *)
Theorem maximumHeadingLength_is_monotone :
  forall tree file m n node,
    m <= n ->
    In (length_warning n node)
      (messages_of (remarkLintMaximumHeadingLength tree file (OfNumber n))) ->
    In (length_warning m node)
      (messages_of (remarkLintMaximumHeadingLength tree file (OfNumber m))).
Proof.
  intros tree file m n node Hmn.
  rewrite !maximumHeadingLength_run. cbn [messages_of].
  rewrite !length_verdict_filter, !List.in_map_iff.
  intros (h & Hh & Hin). exists h.
  assert (Hnode : h = node).
  { unfold length_warning in Hh. injection Hh as Hh. exact Hh. }
  subst h. split; [reflexivity|].
  apply List.filter_In in Hin. apply List.filter_In.
  destruct Hin as [Hin Hlong]. split; [exact Hin|].
  unfold too_long in *. apply Z.ltb_lt in Hlong. apply Z.ltb_lt. lia.
Qed.

Lemma maximumHeadingLength_is_monotone_witness :
  In (length_warning 10 Sample.long_heading)
    (messages_of
       (remarkLintMaximumHeadingLength Sample.length_doc Sample.empty_file
          (OfNumber 10))).
Proof.
  apply (maximumHeadingLength_is_monotone Sample.length_doc Sample.empty_file
           10 40 Sample.long_heading).
  - lia.
  - vm_compute. left. reflexivity.
Defined.

(* ================================================================== *)
(** * no-duplicate-headings: silence, count, soundness *)
(* ================================================================== *)

Lemma most_recent_none seen b :
  most_recent seen b = None
  <-> Forall (fun a => normalized a <> normalized b) seen.
Proof.
  unfold most_recent. induction seen as [|a seen IH]; cbn [List.find].
  - split; [constructor|reflexivity].
  - destruct (decide (normalized a = normalized b)) as [E|E].
    + rewrite bool_decide_eq_true_2 by exact E.
      split; [discriminate|]. intros H. inversion H; contradiction.
    + rewrite bool_decide_eq_false_2 by exact E.
      rewrite IH. split; [constructor; assumption|].
      intros H. inversion H; assumption.
Qed.

Lemma similar_headings_nil seen nodes :
  similar_headings seen nodes = []
  <-> NoDup (map normalized nodes)
      /\ Forall (fun b =>
                   Forall (fun a => normalized a <> normalized b) seen)
           nodes.
Proof.
  revert seen. induction nodes as [|b nodes IH]; intros seen;
    cbn [similar_headings map].
  - split; [intros _; split; constructor|reflexivity].
  - split.
    + intros H. apply app_eq_nil in H. destruct H as [Hb Hrest].
      assert (Hnone : most_recent seen b = None)
        by (destruct (most_recent seen b); [discriminate|reflexivity]).
      apply most_recent_none in Hnone.
      apply IH in Hrest. destruct Hrest as [Hnodup Hall].
      split.
      * constructor; [|exact Hnodup].
        rewrite list_elem_of_In, List.in_map_iff. intros (c & Hc & Hin).
        rewrite List.Forall_forall in Hall.
        specialize (Hall c Hin). inversion Hall; congruence.
      * constructor; [exact Hnone|].
        eapply List.Forall_impl; [|exact Hall].
        intros c Hc. inversion Hc; assumption.
    + intros [Hnodup Hall].
      inversion Hnodup as [|? ? Hnotin Hnodup']; subst.
      inversion Hall as [|? ? Hb Hall']; subst.
      apply most_recent_none in Hb. rewrite Hb. cbn [app].
      apply IH. split; [exact Hnodup'|].
      rewrite List.Forall_forall in *. intros c Hc.
      constructor; [|apply Hall'; exact Hc].
      intros E. apply Hnotin. rewrite list_elem_of_In, List.in_map_iff.
      exists c. split; [symmetry; exact E|exact Hc].
Qed.

(** X10.  [remarkLintNoDuplicateHeadings] is silent exactly on the
    documents in which no two headings (that have a position) have the
    same plain text in upper case. *)
Theorem noDuplicateHeadings_silent_iff_distinct :
  forall tree file option_,
    remarkLintNoDuplicateHeadings tree file option_ = Done tt []
    <-> NoDup (map normalized (headings tree)).
Proof.
  intros tree file option_. rewrite noDuplicateHeadings_run. split.
  - intros H. injection H as H. apply similar_headings_nil in H. tauto.
  - intros H. f_equal. apply similar_headings_nil. split; [exact H|].
    apply List.Forall_forall. intros b _. constructor.
Qed.

Lemma most_recent_known seen b :
  is_Some (most_recent seen b) <-> normalized b ∈ contents_of seen.
Proof.
  unfold contents_of. rewrite elem_of_list_to_set, list_elem_of_In.
  rewrite List.in_map_iff. split.
  - intros [a Ha]. unfold most_recent in Ha. apply List.find_some in Ha.
    destruct Ha as [Hin E]. apply bool_decide_eq_true_1 in E.
    exists a. split; auto.
  - intros (a & E & Hin).
    destruct (most_recent seen b) as [a'|] eqn:Hnone; [eexists; reflexivity|].
    apply most_recent_none in Hnone. rewrite List.Forall_forall in Hnone.
    exfalso. exact (Hnone a Hin E).
Qed.

Lemma similar_headings_count seen nodes :
  (length (similar_headings seen nodes)
   + size (contents_of nodes ∪ contents_of seen)
   = length nodes + size (contents_of seen))%nat.
Proof.
  revert seen. induction nodes as [|b nodes IH]; intros seen.
  - cbn [similar_headings length]. unfold contents_of at 1. cbn [map].
    rewrite list_to_set_nil, (left_id_L ∅ (∪)). reflexivity.
  - cbn [similar_headings]. rewrite length_app. specialize (IH (b :: seen)).
    assert (Hsets : contents_of (b :: nodes) ∪ contents_of seen
                    = contents_of nodes ∪ contents_of (b :: seen)).
    { unfold contents_of. cbn [map]. rewrite !list_to_set_cons.
      rewrite (comm_L (∪) {[normalized b]} (list_to_set (map normalized nodes))).
      rewrite <- (assoc_L (∪)). reflexivity. }
    rewrite Hsets. cbn [length].
    destruct (most_recent seen b) as [a|] eqn:Hb.
    + assert (Hin : normalized b ∈ contents_of seen)
        by (apply most_recent_known; rewrite Hb; eexists; reflexivity).
      assert (Hsame : contents_of (b :: seen) = contents_of seen).
      { unfold contents_of in *. cbn [map]. rewrite list_to_set_cons.
        apply subseteq_union_1_L, singleton_subseteq_l. exact Hin. }
      rewrite Hsame in *. cbn [length]. lia.
    + assert (Hnotin : normalized b ∉ contents_of seen).
      { intros Hin. apply most_recent_known in Hin. rewrite Hb in Hin.
        destruct Hin; discriminate. }
      assert (Hsize : size (contents_of (b :: seen))
                      = S (size (contents_of seen))).
      { unfold contents_of in *. cbn [map]. rewrite list_to_set_cons.
        rewrite size_union by (apply disjoint_singleton_l; exact Hnotin).
        rewrite size_singleton. reflexivity. }
      rewrite Hsize in IH. cbn [length]. lia.
Qed.

(** X11.  [remarkLintNoDuplicateHeadings] reports every heading (that
    has a position) but the first one of each content: the number of
    diagnostics and the number of distinct upper-case texts add up to
    the number of headings. *)
Theorem noDuplicateHeadings_count :
  forall tree file option_,
    (length (messages_of (remarkLintNoDuplicateHeadings tree file option_))
     + size (contents_of (headings tree))
     = length (headings tree))%nat.
Proof.
  intros tree file option_. rewrite noDuplicateHeadings_run.
  cbn [messages_of].
  pose proof (similar_headings_count [] (headings tree)) as H.
  unfold contents_of at 2 3 in H. cbn [map] in H.
  rewrite list_to_set_nil, (right_id_L ∅ (∪)), size_empty in H. lia.
Qed.

Lemma find_split {A} (f : A -> bool) (l : list A) (a : A) :
  List.find f l = Some a ->
  exists l1 l2,
    l = l1 ++ a :: l2 /\ f a = true /\ Forall (fun x => f x = false) l1.
Proof.
  induction l as [|x l IH]; cbn [List.find]; [discriminate|].
  destruct (f x) eqn:Hx.
  - intros [= ->]. exists [], l. repeat split; [exact Hx|constructor].
  - intros H. destruct (IH H) as (l1 & l2 & -> & Ha & Hl1).
    exists (x :: l1), l2. repeat split; [exact Ha|].
    constructor; assumption.
Qed.

Lemma similar_headings_sound before nodes m :
  In m (similar_headings (rev before) nodes) ->
  exists earlier a between b later,
    before ++ nodes = earlier ++ a :: between ++ b :: later
    /\ normalized a = normalized b
    /\ Forall (fun c => normalized c <> normalized b) between
    /\ m = similar_warning a b.
Proof.
  revert before. induction nodes as [|b nodes IH]; intros before;
    cbn [similar_headings]; [intros []|].
  intros Hin. apply List.in_app_or in Hin. destruct Hin as [Hin|Hin].
  - destruct (most_recent (rev before) b) as [a|] eqn:Hb; [|destruct Hin].
    destruct Hin as [<-|[]].
    unfold most_recent in Hb.
    destruct (find_split _ _ _ Hb) as (l1 & l2 & Hrev & Ha & Hl1).
    apply bool_decide_eq_true_1 in Ha.
    exists (rev l2), a, (rev l1), b, nodes. repeat split.
    + rewrite <- (List.rev_involutive before), Hrev.
      rewrite List.rev_app_distr. cbn [rev]. rewrite <- !app_assoc.
      reflexivity.
    + exact Ha.
    + apply List.Forall_rev. eapply List.Forall_impl; [|exact Hl1].
      intros c Hc. cbv beta in Hc. apply bool_decide_eq_false_1 in Hc.
      exact Hc.
  - specialize (IH (before ++ [b])).
    rewrite List.rev_app_distr in IH. cbn [rev app] in IH.
    destruct (IH Hin) as (earlier & a & between & b' & later & E & H).
    exists earlier, a, between, b', later. split; [|exact H].
    rewrite <- E, <- app_assoc. reflexivity.
Qed.

(** X12.  Every diagnostic of [remarkLintNoDuplicateHeadings] is
    justified: it sits on a heading [b] and names the start of a heading
    [a] that comes before [b] in the document, has the text of [b] in
    upper case, and is the latest such heading before [b]. *)
Theorem noDuplicateHeadings_sound :
  forall tree file option_ m,
    In m (messages_of (remarkLintNoDuplicateHeadings tree file option_)) ->
    exists earlier a between b later,
      headings tree = earlier ++ a :: between ++ b :: later
      /\ normalized a = normalized b
      /\ Forall (fun c => normalized c <> normalized b) between
      /\ m = similar_warning a b.
Proof.
  intros tree file option_ m. rewrite noDuplicateHeadings_run.
  cbn [messages_of]. intros Hin.
  exact (similar_headings_sound [] (headings tree) m Hin).
Qed.

Lemma noDuplicateHeadings_sound_witness :
  exists earlier a between b later,
    headings Sample.heading_doc = earlier ++ a :: between ++ b :: later
    /\ normalized a = normalized b
    /\ Forall (fun c => normalized c <> normalized b) between
    /\ mkMessage "Do not use headings with similar content (3:1)"
         (AtNode Sample.foo3) false
       = similar_warning a b.
Proof.
  apply (noDuplicateHeadings_sound Sample.heading_doc Sample.heading_file
           Absent).
  vm_compute. right. left. reflexivity.
Defined.

(* ================================================================== *)
(** * The style of a code block *)
(* ================================================================== *)

Lemma append_cons c a b : String c a +:+ b = String c (a +:+ b).
Proof. reflexivity. Qed.

Lemma skip_spaces_split s :
  exists ws,
    s = ws +:+ skip_spaces s /\ only is_space ws = true
    /\ begins_with is_space (skip_spaces s) = false.
Proof.
  induction s as [|c s (ws & Hs & Hws & Hrest)]; cbn [skip_spaces].
  - exists EmptyString. repeat split.
  - destruct (is_space c) eqn:Hc.
    + exists (String c ws). split; [|split].
      * rewrite append_cons. f_equal. exact Hs.
      * cbn [only]. rewrite Hc, Hws. reflexivity.
      * exact Hrest.
    + exists EmptyString. repeat split. exact Hc.
Qed.

Lemma skip_spaces_append ws s :
  only is_space ws = true -> skip_spaces (ws +:+ s) = skip_spaces s.
Proof.
  induction ws as [|c ws IH]; [reflexivity|].
  rewrite append_cons. cbn [only skip_spaces].
  intros H. apply andb_true_iff in H. destruct H as [Hc Hws].
  rewrite Hc. apply IH. exact Hws.
Qed.

Lemma fence_char_is_no_space c : is_fence_char c = true -> is_space c = false.
Proof.
  unfold is_fence_char, is_space. intros H. apply orb_true_iff in H.
  destruct H as [H|H]; apply Z.eqb_eq in H; rewrite H; reflexivity.
Qed.

(** X13.  The test [/^\s*([~`])\1{2,}/] of [codeBlockStyle] accepts
    exactly the texts made of white space followed by a tilde or a
    backtick three times over: two markers, or three that are not the
    same character, do not make a fence. *)
Theorem fence_test_accepts_three_markers :
  forall s,
    fence_test s = true
    <-> exists ws c rest,
          s = ws +:+ String c (String c (String c rest))
          /\ only is_space ws = true
          /\ is_fence_char c = true.
Proof.
  intros s. unfold fence_test. split.
  - destruct (skip_spaces_split s) as (ws & Hs & Hws & _).
    destruct (skip_spaces s) as [|c [|c1 [|c2 rest]]]; try discriminate.
    intros H. apply andb_true_iff in H. destruct H as [H H2].
    apply andb_true_iff in H. destruct H as [Hc H1].
    apply Ascii.eqb_eq in H1, H2. subst c1 c2.
    exists ws, c, rest. repeat split; assumption.
  - intros (ws & c & rest & -> & Hws & Hc).
    rewrite (skip_spaces_append _ _ Hws). cbn [skip_spaces].
    rewrite (fence_char_is_no_space _ Hc), Hc, Ascii.eqb_refl.
    reflexivity.
Qed.

Lemma substring_length_le n m s :
  (String.length (String.substring n m s) <= m)%nat.
Proof.
  revert m s. induction n as [|n IH]; intros m s.
  - revert s. induction m as [|m IHm]; intros [|c s]; simpl; try lia.
    specialize (IHm s). lia.
  - destruct s as [|c s]; simpl; [lia|apply IH].
Qed.

Lemma slice_empty s from to :
  0 <= from -> 0 <= to ->
  to <= from \/ Z.of_nat (String.length s) <= from ->
  slice s from to = EmptyString.
Proof.
  intros Hfrom Hto Hcase. unfold slice.
  destruct (Z.ltb_spec from 0); [lia|]. destruct (Z.ltb_spec to 0); [lia|].
  replace (Z.to_nat (Z.max (Z.min to (Z.of_nat (String.length s))
                            - Z.min from (Z.of_nat (String.length s))) 0))
    with 0%nat by lia.
  apply substring_nothing.
Qed.

Lemma clean_point_offset_nonneg p : 0 <= to_number (offset (clean_point p)).
Proof.
  destruct p as [[l c [o|]]|]; cbn; try lia.
  destruct (Z.ltb_spec (-1) o); cbn; lia.
Qed.

(** X14.  How [codeBlockStyle] classifies a code block.  A code block
    with a non-empty [lang] is fenced whatever the file holds.  One
    without [lang] whose offsets select no text (the offsets are
    missing, the end is not after the start, or the start lies at or
    beyond the end of the file) is indented. *)
Theorem current_style_without_text :
  forall file_value node,
    (truthy_string (lang node) = true ->
     current_style file_value node = "fenced")
    /\ (truthy_string (lang node) = false ->
        to_number (offset (pointEnd (Some node)))
        <= to_number (offset (pointStart (Some node)))
        \/ Z.of_nat (String.length file_value)
           <= to_number (offset (pointStart (Some node))) ->
        current_style file_value node = "indented").
Proof.
  intros file_value node. unfold current_style. split.
  - intros ->. reflexivity.
  - intros -> Hcase. rewrite slice_empty; [reflexivity|..|exact Hcase];
      apply clean_point_offset_nonneg.
Qed.

Lemma current_style_without_text_witness :
  current_style (contents Sample.code_file) Sample.inserted_code = "indented".
Proof.
  apply (proj2 (current_style_without_text (contents Sample.code_file)
                  Sample.inserted_code)).
  - reflexivity.
  - left. vm_compute. discriminate.
Defined.

(* ================================================================== *)
(** * checkbox-content-indent *)
(* ================================================================== *)

Lemma checkbox_exec_length s :
  checkbox_exec s = true -> (3 <= String.length s)%nat.
Proof.
  induction s as [|c s IH]; [discriminate|].
  destruct s as [|c1 [|c2 r]]; try discriminate.
  intros _. simpl. lia.
Qed.

Lemma checkbox_exec_without_offset value :
  checkbox_exec (slice value (0 - 4) (0 + 1)) = false.
Proof.
  destruct (checkbox_exec _) eqn:E; [|reflexivity].
  apply checkbox_exec_length in E. unfold slice in E.
  pose proof (substring_length_le
                (Z.to_nat (if 0 - 4 <? 0
                           then Z.max (Z.of_nat (String.length value) + (0 - 4)) 0
                           else Z.min (0 - 4) (Z.of_nat (String.length value))))
                (Z.to_nat
                   (Z.max
                      ((if 0 + 1 <? 0
                        then Z.max (Z.of_nat (String.length value) + (0 + 1)) 0
                        else Z.min (0 + 1) (Z.of_nat (String.length value)))
                       - (if 0 - 4 <? 0
                          then Z.max (Z.of_nat (String.length value) + (0 - 4)) 0
                          else Z.min (0 - 4) (Z.of_nat (String.length value))))
                      0))
                value) as Hle.
  cbv zeta in E.
  change (0 - 4 <? 0) with true in *. change (0 + 1 <? 0) with false in *.
  cbv iota in *. lia.
Qed.

Lemma checkboxContentIndent_visitor_silent file n s :
  checked n = None \/ generated n = true
  \/ offset (content_point n) = None ->
  checkboxContentIndent_visitor file n s = ret tt.
Proof.
  unfold checkboxContentIndent_visitor. intros Hcase.
  destruct Hcase as [Hc|[Hg|Ho]].
  - rewrite Hc. rewrite bool_decide_eq_false_2 by (intros [x Hx]; discriminate).
    reflexivity.
  - rewrite Hg, orb_true_r. reflexivity.
  - destruct (_ || _); [reflexivity|]. cbv zeta.
    fold (content_point n). rewrite Ho. change (to_number None) with 0.
    rewrite checkbox_exec_without_offset. reflexivity.
Qed.

(** X15.  [remarkLintCheckboxContentIndent] is silent on a document in
    which every list item is without a checkbox ([checked] is not a
    boolean), generated, or without an offset where its content starts:
    no text is then taken for a checkbox. *)
Theorem checkboxContentIndent_silent :
  forall tree file option_,
    Forall (fun node =>
              checked node = None \/ generated node = true
              \/ offset (content_point node) = None)
      (visited tree "listItem") ->
    remarkLintCheckboxContentIndent tree file option_ = Done tt [].
Proof.
  intros tree file option_ Hall. unfold remarkLintCheckboxContentIndent.
  rewrite visit_visit_list.
  induction Hall as [|n ns Hn _ IH]; [reflexivity|].
  cbn [visit_list]. rewrite (checkboxContentIndent_visitor_silent _ _ _ Hn).
  rewrite bind_ret_l. exact IH.
Qed.

Lemma checkboxContentIndent_silent_witness :
  remarkLintCheckboxContentIndent More.plain_doc More.plain_file Absent
  = Done tt [].
Proof.
  apply checkboxContentIndent_silent. vm_compute. repeat constructor.
Defined.

Lemma blank_run_split s :
  exists blanks rest,
    s = blanks +:+ rest
    /\ Z.of_nat (String.length blanks) = blank_run s
    /\ only is_blank blanks = true
    /\ begins_with is_blank rest = false.
Proof.
  induction s as [|c s (blanks & rest & Hs & Hlen & Hb & Hrest)];
    cbn [blank_run].
  - exists EmptyString, EmptyString. repeat split.
  - destruct (is_blank c) eqn:Hc.
    + exists (String c blanks), rest. split; [|split; [|split]].
      * rewrite append_cons. f_equal. exact Hs.
      * cbn [String.length]. lia.
      * cbn [only]. rewrite Hc, Hb. reflexivity.
      * exact Hrest.
    + exists EmptyString, (String c s). repeat split. exact Hc.
Qed.

Lemma append_length a b :
  String.length (a +:+ b) = (String.length a + String.length b)%nat.
Proof.
  induction a as [|c a IH]; [reflexivity|].
  rewrite append_cons. cbn [String.length]. rewrite IH. reflexivity.
Qed.

Lemma substring_suffix_length n s :
  (n <= String.length s)%nat ->
  String.length (String.substring n (String.length s - n) s)
  = (String.length s - n)%nat.
Proof.
  revert s. induction n as [|n IH]; intros s Hn.
  - rewrite Nat.sub_0_r. clear Hn. induction s as [|c s IHs]; [reflexivity|].
    cbn [String.length String.substring]. rewrite IHs. reflexivity.
  - destruct s as [|c s]; [cbn in Hn; lia|].
    cbn [String.length] in *. cbn [String.substring].
    replace (S (String.length s) - S n)%nat with (String.length s - n)%nat
      by lia.
    apply IH. lia.
Qed.

Lemma messages_of_visit_list_from {S} (visitor : Node -> S -> Lint S)
    (ns : list Node) (s : S) (m : VFileMessage) :
  In m (messages_of (visit_list visitor ns s)) ->
  exists n s', In n ns /\ In m (messages_of (visitor n s')).
Proof.
  revert s. induction ns as [|n ns IH]; intros s; cbn [visit_list];
    [intros []|].
  rewrite messages_of_bind_app. intros Hin.
  apply List.in_app_or in Hin. destruct Hin as [Hin|Hin].
  - exists n, s. split; [left; reflexivity|exact Hin].
  - destruct (visitor n s) as [s1 ms|ms]; [|destruct Hin].
    destruct (IH s1 Hin) as (n' & s' & Hn' & Hm).
    exists n', s'. split; [right; exact Hn'|exact Hm].
Qed.

(** X16.  What [remarkLintCheckboxContentIndent] reports, on a tree in
    document order.  Every diagnostic belongs to a list item with a
    checkbox; it spans from the offset where the content of the item
    starts over the tabs and spaces found there: at least one, all of
    them, and nothing else. *)
Theorem checkboxContentIndent_spans_the_blanks :
  forall tree file option_ m,
    in_document_order tree = true ->
    In m (messages_of (remarkLintCheckboxContentIndent tree file option_)) ->
    exists node from to blanks rest,
      In node (visited tree "listItem")
      /\ is_Some (checked node)
      /\ m = mkMessage "Checkboxes should be followed by a single character"
               (AtPosition from to) false
      /\ offset from = Some (content_start node)
      /\ offset to
         = Some (content_start node + Z.of_nat (String.length blanks))
      /\ from_index (contents file) (content_start node) = blanks +:+ rest
      /\ (1 <= String.length blanks)%nat
      /\ only is_blank blanks = true
      /\ begins_with is_blank rest = false.
Proof.
  intros tree file option_ m Horder Hin.
  unfold remarkLintCheckboxContentIndent in Hin.
  rewrite visit_visit_list in Hin.
  destruct (messages_of_visit_list_from _ _ _ _ Hin) as (n & s' & Hn & Hm).
  assert (Hplaced : placed n).
  { unfold in_document_order in Horder.
    destruct (end_of tree) as [e|]; [|discriminate].
    destruct (laid_out_placed tree e 0 ltac:(lia) Horder) as [_ Hp].
    rewrite List.Forall_forall in Hp. apply Hp.
    unfold visited in Hn. apply List.filter_In in Hn. tauto. }
  destruct (content_point_offset n Hplaced) as [Hcontent Hcontent0].
  unfold checkboxContentIndent_visitor in Hm.
  destruct (bool_decide (is_Some (checked n))) eqn:Hbox;
    [|destruct Hm].
  apply bool_decide_eq_true in Hbox. cbn [negb orb] in Hm.
  destruct (generated n); [destruct Hm|]. cbv zeta in Hm.
  destruct (negb _); [destruct Hm|].
  rewrite Hcontent in Hm.
  change (to_number (Some (content_start n))) with (content_start n) in Hm.
  set (i := content_start n) in *.
  destruct (blank_run_split (from_index (contents file) i))
    as (blanks & rest & Hsplit & Hlen & Hblanks & Hrest).
  destruct (Z.eqb_spec (blank_run (from_index (contents file) i)) 0)
    as [E|E].
  { change (to_number (Some i)) with i in Hm. rewrite Z.sub_diag in Hm.
    destruct Hm. }
  change (to_number (Some (i + blank_run (from_index (contents file) i))))
    with (i + blank_run (from_index (contents file) i)) in Hm.
  destruct (_ <? _); [|destruct Hm]. destruct Hm as [<-|[]].
  assert (Hi : i < Z.of_nat (String.length (contents file))).
  { destruct (Z.le_gt_cases (Z.of_nat (String.length (contents file))) i)
      as [Hge|Hlt]; [|lia].
    rewrite (from_index_end _ _ Hge) in E. contradiction E. reflexivity. }
  assert (Hsuffix : Z.of_nat (String.length (from_index (contents file) i))
                    = Z.of_nat (String.length (contents file)) - i).
  { unfold from_index. destruct (Z.ltb_spec i 0); [lia|].
    rewrite substring_suffix_length by lia. lia. }
  assert (Hfits : Z.of_nat (String.length blanks)
                  <= Z.of_nat (String.length (from_index (contents file) i))).
  { rewrite Hsplit, append_length. lia. }
  exists n, (toPoint file (Some i)),
    (toPoint file (Some (i + blank_run (from_index (contents file) i)))),
    blanks, rest.
  repeat split; try assumption.
  - apply toPoint_offset. lia.
  - rewrite toPoint_offset by lia. rewrite Hlen. reflexivity.
  - lia.
Qed.

Lemma checkboxContentIndent_spans_the_blanks_witness :
  exists node from to blanks rest,
    In node (visited Sample.box_doc "listItem")
    /\ is_Some (checked node)
    /\ mkMessage "Checkboxes should be followed by a single character"
         (AtPosition (Sample.at_ 3 7 39) (Sample.at_ 3 9 41)) false
       = mkMessage "Checkboxes should be followed by a single character"
           (AtPosition from to) false
    /\ offset from = Some (content_start node)
    /\ offset to
       = Some (content_start node + Z.of_nat (String.length blanks))
    /\ from_index (contents Sample.box_file) (content_start node)
       = blanks +:+ rest
    /\ (1 <= String.length blanks)%nat
    /\ only is_blank blanks = true
    /\ begins_with is_blank rest = false.
Proof.
  apply (checkboxContentIndent_spans_the_blanks Sample.box_doc
           Sample.box_file Absent).
  - vm_compute. reflexivity.
  - vm_compute. right. left. reflexivity.
Defined.

(* ================================================================== *)
(** * How many diagnostics, and from which part of the tree *)
(* ================================================================== *)

Lemma visitors_report_once file :
  (forall n s,
      (length (messages_of (codeBlockStyle_visitor (contents file) n s))
       <= if not_generated n then 1 else 0)%nat)
  /\ (forall n s,
         (length (messages_of (blockquoteIndentation_visitor n s))
          <= if not_generated n then 1 else 0)%nat)
  /\ (forall p n s,
         (length (messages_of (maximumHeadingLength_visitor p n s))
          <= if not_generated n then 1 else 0)%nat)
  /\ (forall n s,
         (length (messages_of (noDuplicateHeadings_visitor n s))
          <= if not_generated n then 1 else 0)%nat)
  /\ (forall n s,
         (length (messages_of (checkboxContentIndent_visitor file n s))
          <= if not_generated n then 1 else 0)%nat).
Proof.
  unfold not_generated. repeat split; intros.
  - unfold codeBlockStyle_visitor. destruct (generated n); [cbn; lia|].
    destruct (truthy_string s); [|cbn; lia].
    destruct (differs _ _); cbn; lia.
  - unfold blockquoteIndentation_visitor.
    destruct (generated n); [cbn; lia|]. cbn [orb negb].
    destruct (_ =? 0); [cbn; lia|].
    destruct (truthy s); [|cbn; lia].
    destruct (is_not_zero _); cbn; lia.
  - unfold maximumHeadingLength_visitor. destruct (generated n); [cbn; lia|].
    cbn [negb andb]. destruct (exceeds _ _); cbn; lia.
  - unfold noDuplicateHeadings_visitor. destruct (generated n); [cbn; lia|].
    cbn [negb]. destruct (s !! _); cbn; lia.
  - unfold checkboxContentIndent_visitor.
    destruct (generated n); [rewrite orb_true_r; cbn; lia|].
    destruct (negb _ || false); [cbn; lia|]. cbv zeta.
    destruct (negb _); [cbn; lia|].
    destruct (_ <? _); cbn; lia.
Qed.

(** X17.  One call of the visitor of a rule, on any node and whatever
    the visitor has seen before, emits one diagnostic at most, and none
    when the node it is called on is generated.  As the walker calls
    the visitor once for each node of the visited kind, a node is not
    reported twice. *)
Theorem each_visit_reports_at_most_once :
  forall file node,
    let bound := if generated node then 0%nat else 1%nat in
    (forall preferred,
        (length (messages_of
                   (codeBlockStyle_visitor (contents file) node preferred))
         <= bound)%nat)
    /\ (forall preferred,
           (length (messages_of
                      (blockquoteIndentation_visitor node preferred))
            <= bound)%nat)
    /\ (forall preferred,
           (length (messages_of
                      (maximumHeadingLength_visitor preferred node tt))
            <= bound)%nat)
    /\ (forall map,
           (length (messages_of (noDuplicateHeadings_visitor node map))
            <= bound)%nat)
    /\ (length (messages_of (checkboxContentIndent_visitor file node tt))
        <= bound)%nat.
Proof.
  intros file node bound.
  destruct (visitors_report_once file) as (Hc & Hb & Hm & Hd & Hx).
  assert (E : bound = if not_generated node then 1%nat else 0%nat).
  { unfold bound, not_generated. destruct (generated node); reflexivity. }
  rewrite E. repeat split; intros; auto.
Qed.

Lemma filter_flat_map {A B} (keep : B -> bool) (f : A -> list B)
    (l : list A) :
  List.filter keep (flat_map f l)
  = flat_map (fun x => List.filter keep (f x)) l.
Proof.
  induction l as [|x l IH]; [reflexivity|].
  cbn [flat_map]. rewrite List.filter_app, IH. reflexivity.
Qed.

Lemma stateless_visit_list (visitor : Node -> unit -> Lint unit) :
  (forall n s, exists s' ms, visitor n s = Done s' ms) ->
  forall ns,
    messages_of (visit_list visitor ns tt)
    = flat_map (fun n => messages_of (visitor n tt)) ns.
Proof.
  intros Hv ns. induction ns as [|n ns IH]; [reflexivity|].
  cbn [visit_list flat_map]. rewrite messages_of_bind_app.
  destruct (Hv n tt) as ([] & ms & E). rewrite E. cbn [messages_of].
  rewrite IH. reflexivity.
Qed.

Lemma flat_map_flat_map {A B C} (f : A -> list B) (g : B -> list C)
    (l : list A) :
  flat_map g (flat_map f l) = flat_map (fun x => flat_map g (f x)) l.
Proof.
  induction l as [|x l IH]; [reflexivity|].
  cbn [flat_map]. rewrite List.flat_map_app, IH. reflexivity.
Qed.

(** X18.  [remarkLintMaximumHeadingLength] and
    [remarkLintCheckboxContentIndent] keep no variable between nodes, so
    they report on a tree part by part: under a node that is not itself
    of the visited kind, the diagnostics are those of the children, one
    child after the other. *)
Theorem stateless_rules_report_part_by_part :
  forall rule tree file option_,
    rule = MaximumHeadingLength \/ rule = CheckboxContentIndent ->
    has_kind (kind_of rule) tree = false ->
    messages_of (lint rule tree file option_)
    = flat_map (fun c => messages_of (lint rule c file option_))
        (children tree).
Proof.
  intros rule tree file option_ Hrule Hkind.
  destruct (visitors_return file) as (_ & _ & Hm & _ & Hx).
  assert (Hvisited : visited tree (kind_of rule)
                     = flat_map (fun c => visited c (kind_of rule))
                         (children tree)).
  { unfold visited. rewrite preorder_unfold. cbn [List.filter].
    rewrite Hkind. apply filter_flat_map. }
  destruct Hrule as [-> | ->]; cbn [kind_of] in *.
  - rewrite lint_unfold. cbv zeta. rewrite Hvisited.
    rewrite (stateless_visit_list _ (Hm _)), flat_map_flat_map.
    apply List.flat_map_ext. intros c.
    rewrite lint_unfold. cbv zeta.
    rewrite (stateless_visit_list _ (Hm _)). reflexivity.
  - rewrite lint_unfold. cbv zeta. rewrite Hvisited.
    rewrite (stateless_visit_list _ Hx), flat_map_flat_map.
    apply List.flat_map_ext. intros c.
    rewrite lint_unfold. cbv zeta.
    rewrite (stateless_visit_list _ Hx). reflexivity.
Qed.

Lemma stateless_rules_report_part_by_part_witness :
  messages_of
    (lint CheckboxContentIndent Sample.box_doc Sample.box_file Absent)
  = flat_map
      (fun c =>
         messages_of (lint CheckboxContentIndent c Sample.box_file Absent))
      (children Sample.box_doc).
Proof.
  apply stateless_rules_report_part_by_part.
  - right. reflexivity.
  - reflexivity.
Defined.

(* ================================================================== *)
(** * blockquote-indentation: what it ignores, what it does not *)
(* ================================================================== *)

(** X19.  [blockquoteIndentation] looks only at the block quotes that
    have a position and at least one child: on two trees that agree on
    those, the runs agree, whatever empty or generated block quotes the
    trees hold besides. *)
Theorem blockquoteIndentation_ignores_empty_quotes :
  forall tree tree' file option_,
    block_quotes tree = block_quotes tree' ->
    blockquoteIndentation tree file option_
    = blockquoteIndentation tree' file option_.
Proof.
  intros tree tree' file option_ Hsame.
  rewrite !blockquoteIndentation_run. unfold block_quotes in Hsame.
  rewrite (visit_list_filter has_content _
             blockquoteIndentation_visitor_skip (visited tree _)),
          (visit_list_filter has_content _
             blockquoteIndentation_visitor_skip (visited tree' _)),
          Hsame.
  reflexivity.
Qed.

Lemma blockquoteIndentation_ignores_empty_quotes_witness :
  blockquoteIndentation More.quote_doc' Sample.quote_file Absent
  = blockquoteIndentation Sample.quote_doc Sample.quote_file Absent.
Proof.
  apply blockquoteIndentation_ignores_empty_quotes. vm_compute. reflexivity.
Defined.

(** X20.  [blockquoteIndentation] does not test the first child of a
    block quote with [generated].  When that child has no position,
    [check] is minus the column of the block quote, which is never 0
    for a block quote with a position; and with any other number but 0
    preferred, the block quote is reported at a point without line,
    column and offset. *)
Theorem blockquoteIndentation_reads_a_generated_child :
  forall node c cs,
    children node = c :: cs ->
    position c = None ->
    generated node = false ->
    check node = - to_number (column (pointStart (Some node)))
    /\ check node <> 0
    /\ (forall p : Z,
           p <> 0 -> p <> check node ->
           exists text,
             blockquoteIndentation_visitor node (Some (Integer p))
             = Done (Some (Integer p))
                 [mkMessage text (AtPoint undefined_point) false]).
Proof.
  intros node c cs Hcs Hc Hgen.
  assert (Hpoint : pointStart (head (children node)) = undefined_point).
  { rewrite Hcs. unfold pointStart. cbn [head mbind option_bind].
    rewrite Hc. reflexivity. }
  assert (Hcheck : check node = - to_number (column (pointStart (Some node)))).
  { unfold check. rewrite Hpoint. cbn [undefined_point column].
    change (to_number None) with 0. lia. }
  assert (Hcolumn : to_number (column (pointStart (Some node))) <> 0).
  { unfold generated in Hgen. unfold pointStart. cbn [mbind option_bind].
    destruct (position node) as [p|]; [|discriminate]. cbn [mbind option_bind].
    destruct (start p) as [s|]; [|discriminate].
    destruct (end_ p) as [e|]; [|discriminate].
    cbn [clean_point column]. unfold or_null.
    destruct (truthy_number (column s)) eqn:Hcol;
      [|rewrite orb_true_r in Hgen; discriminate].
    destruct (column s) as [z|]; [|discriminate]. cbn in *.
    destruct (Z.eqb_spec z 0); [discriminate|assumption]. }
  split; [exact Hcheck|]. split; [lia|].
  intros p Hp Hne.
  assert (Hcontent : has_content node = true).
  { unfold has_content. rewrite Hgen, Hcs. reflexivity. }
  rewrite (blockquoteIndentation_visitor_compare node p Hcontent)
    by (apply truthy_integer; exact Hp).
  rewrite quote_verdict_integer.
  destruct (Z.eqb_spec (check node) p) as [E|_]; [congruence|].
  unfold quote_warning. rewrite Hpoint. eexists. reflexivity.
Qed.

Lemma blockquoteIndentation_reads_a_generated_child_witness :
  check More.titled_quote = - to_number
                                (column (pointStart (Some More.titled_quote)))
  /\ check More.titled_quote <> 0
  /\ (forall p : Z,
         p <> 0 -> p <> check More.titled_quote ->
         exists text,
           blockquoteIndentation_visitor More.titled_quote
             (Some (Integer p))
           = Done (Some (Integer p))
               [mkMessage text (AtPoint undefined_point) false]).
Proof.
  apply (blockquoteIndentation_reads_a_generated_child More.titled_quote
           (Sample.parent "paragraph" None [Sample.text None "Note"]) []);
    reflexivity.
Defined.

(** X21.  With ["fenced"] or ["indented"] as its option,
    [codeBlockStyle] is silent exactly on the documents whose code
    blocks (that have a position) are all of that style. *)
Theorem codeBlockStyle_silent_iff_styled :
  forall tree file p,
    p = "fenced" \/ p = "indented" ->
    (codeBlockStyle tree file (OfString p) = Done tt []
     <-> Forall (fun node => current_style (contents file) node = p)
           (code_blocks tree)).
Proof.
  intros tree file p Hp. rewrite (codeBlockStyle_fixed tree file p Hp).
  split.
  - intros H. injection H as H. rewrite flat_map_nil in H.
    eapply List.Forall_impl; [|exact H].
    intros n Hn. apply code_verdict_nil. exact Hn.
  - intros H. f_equal. apply flat_map_nil.
    eapply List.Forall_impl; [|exact H].
    intros n Hn. apply code_verdict_nil. exact Hn.
Qed.

Lemma codeBlockStyle_silent_iff_styled_witness :
  codeBlockStyle Sample.code_doc Sample.code_file (OfString "indented")
  = Done tt []
  <-> Forall
        (fun node =>
           current_style (contents Sample.code_file) node = "indented")
        (code_blocks Sample.code_doc).
Proof.
  apply codeBlockStyle_silent_iff_styled. right. reflexivity.
Defined.

Lemma blockquoteIndentation_visitor_zeros zeros s ns :
  truthy s = false ->
  Forall (fun n => has_content n = true /\ check n = 0) zeros ->
  exists s',
    truthy s' = false
    /\ visit_list blockquoteIndentation_visitor (zeros ++ ns) s
       = visit_list blockquoteIndentation_visitor ns s'.
Proof.
  intros Hs Hzeros. revert s Hs.
  induction Hzeros as [|n zeros [Hn Hcheck] _ IH]; intros s Hs.
  - exists s. split; [exact Hs|reflexivity].
  - cbn [app visit_list].
    rewrite (blockquoteIndentation_visitor_assign n s Hn Hs), bind_ret_l.
    apply IH. rewrite Hcheck. reflexivity.
Qed.

(** X22.  Without a preferred indentation ([option] is no number, or
    the number 0), [blockquoteIndentation] passes over the block quotes
    whose indentation is 0: they are not reported and do not become the
    reference.  The first block quote with another indentation becomes
    it, and the ones after it are compared with it; when there is none,
    the run is silent. *)
Theorem blockquoteIndentation_passes_over_zero :
  forall tree file option_ zeros,
    (forall n, option_ = OfNumber n -> n = 0) ->
    Forall (fun node => check node = 0) zeros ->
    (block_quotes tree = zeros ->
     blockquoteIndentation tree file option_ = Done tt [])
    /\ (forall first rest,
           block_quotes tree = zeros ++ first :: rest ->
           check first <> 0 ->
           blockquoteIndentation tree file option_
           = Done tt (flat_map (quote_verdict (check first)) rest)).
Proof.
  intros tree file option_ zeros Hopt Hzeros.
  assert (Hs : truthy
                 (match option_ with OfNumber n => Some n | _ => None end)
               = false).
  { destruct option_ as [| |n|]; try reflexivity.
    rewrite (Hopt n eq_refl). reflexivity. }
  assert (Hkept : forall ns,
             block_quotes tree = zeros ++ ns ->
             Forall (fun n => has_content n = true /\ check n = 0) zeros
             /\ Forall (fun n => has_content n = true) ns).
  { intros ns Hnodes.
    pose proof (filter_keeps has_content (visited tree "blockquote")) as Hk.
    fold (block_quotes tree) in Hk. rewrite Hnodes in Hk.
    apply Forall_app in Hk. destruct Hk as [Hk1 Hk2]. split; [|exact Hk2].
    rewrite List.Forall_forall in *. intros n Hn. split; auto. }
  assert (Hrun : forall ns,
             block_quotes tree = zeros ++ ns ->
             exists s',
               truthy s' = false
               /\ blockquoteIndentation tree file option_
                  = do visit_list blockquoteIndentation_visitor ns s'
                    then ret tt).
  { intros ns Hnodes. destruct (Hkept ns Hnodes) as [Hz _].
    destruct (blockquoteIndentation_visitor_zeros zeros _ ns Hs Hz)
      as (s' & Hs' & E).
    exists s'. split; [exact Hs'|].
    rewrite blockquoteIndentation_run.
    rewrite (visit_list_filter has_content _
               blockquoteIndentation_visitor_skip).
    fold (block_quotes tree). rewrite Hnodes, E. reflexivity. }
  split.
  - intros Hnodes. destruct (Hrun []) as (s' & _ & E).
    { rewrite app_nil_r. exact Hnodes. }
    rewrite E. reflexivity.
  - intros first rest Hnodes Hfirst.
    destruct (Hrun _ Hnodes) as (s' & Hs' & E). rewrite E.
    destruct (Hkept _ Hnodes) as [_ Hk].
    inversion Hk as [|? ? Hk1 Hk2]; subst.
    cbn [visit_list].
    rewrite (blockquoteIndentation_visitor_assign first s' Hk1 Hs'),
            bind_ret_l.
    rewrite (kept_fixed blockquoteIndentation_visitor truthy
               has_content quote_verdict
               blockquoteIndentation_visitor_compare (Integer (check first))
               rest).
    + simpl. rewrite app_nil_r. reflexivity.
    + apply truthy_integer. exact Hfirst.
    + exact Hk2.
Qed.

Lemma blockquoteIndentation_passes_over_zero_witness :
  blockquoteIndentation Sample.flush_doc Sample.flush_file Absent
  = Done tt (flat_map (quote_verdict (check Sample.bar)) []).
Proof.
  apply (proj2 (blockquoteIndentation_passes_over_zero Sample.flush_doc
                  Sample.flush_file Absent [Sample.flush]
                  ltac:(discriminate)
                  ltac:(repeat constructor))
           Sample.bar []).
  - vm_compute. reflexivity.
  - vm_compute. discriminate.
Defined.

(* ================================================================== *)
(** * Diagnostics in source order *)
(* ================================================================== *)

Lemma not_after_refl a : not_after a a.
Proof. intros x y Hx Hy. rewrite Hx in Hy. injection Hy as <-. lia. Qed.

Lemma events_unfold tree :
  events tree
  = start_of tree :: flat_map events (children tree) ++ [end_of tree].
Proof. destruct tree as [t p cs v a l c]. reflexivity. Qed.

Lemma sorted_app {A} (R : A -> A -> Prop) (l1 l2 : list A) :
  StronglySorted R (l1 ++ l2)
  <-> StronglySorted R l1 /\ StronglySorted R l2
      /\ (forall x y, In x l1 -> In y l2 -> R x y).
Proof.
  rewrite StronglySorted_app. split.
  - intros (Hcross & H1 & H2). repeat split; auto.
    intros x y Hx Hy. apply Hcross; apply list_elem_of_In; assumption.
  - intros (H1 & H2 & Hcross). repeat split; auto.
    intros x y Hx Hy. apply Hcross; apply list_elem_of_In; assumption.
Qed.

(** The head of a sorted list is not after any of its elements. *)
Lemma sorted_head x l :
  StronglySorted not_after (x :: l) ->
  forall y, In y (x :: l) -> not_after x y.
Proof.
  intros H y [<-|Hy]; [apply not_after_refl|].
  apply StronglySorted_inv in H. destruct H as [_ H].
  rewrite List.Forall_forall in H. apply H. exact Hy.
Qed.

Lemma slots_in_events n y : In y (slots n) -> In y (events n).
Proof.
  rewrite events_unfold. unfold slots.
  intros [<-|[<-|[]]]; [left; reflexivity|]. right.
  destruct (children n) as [|c cs]; cbn [flat_map app].
  - left. reflexivity.
  - apply List.in_or_app. left. apply List.in_or_app. left.
    rewrite events_unfold. left. reflexivity.
Qed.

Lemma slots_of_preorder tree :
  flat_map slots (preorder tree)
  = slots tree
    ++ flat_map (fun c => flat_map slots (preorder c)) (children tree).
Proof.
  rewrite preorder_unfold. cbn [flat_map]. f_equal.
  induction (children tree) as [|c cs IH]; [reflexivity|].
  cbn [flat_map]. rewrite List.flat_map_app, IH. reflexivity.
Qed.

Lemma preorder_slots_in_events tree y :
  In y (flat_map slots (preorder tree)) -> In y (events tree).
Proof.
  revert y. induction tree as [n IH] using Node_children_ind. intros y.
  rewrite slots_of_preorder. intros Hy. apply List.in_app_or in Hy.
  destruct Hy as [Hy|Hy]; [apply slots_in_events; exact Hy|].
  rewrite events_unfold. right. apply List.in_or_app. left.
  apply List.in_flat_map in Hy. destruct Hy as (c & Hc & Hy).
  apply List.in_flat_map. exists c. split; [exact Hc|].
  rewrite List.Forall_forall in IH. apply (IH c Hc). exact Hy.
Qed.

Lemma children_slots_in_events cs y :
  In y (flat_map (fun c => flat_map slots (preorder c)) cs) ->
  In y (flat_map events cs).
Proof.
  intros Hy. apply List.in_flat_map in Hy. destruct Hy as (c & Hc & Hy).
  apply List.in_flat_map. exists c. split; [exact Hc|].
  apply preorder_slots_in_events. exact Hy.
Qed.

Lemma not_afterb_spec a b : not_afterb a b = true <-> not_after a b.
Proof.
  unfold not_after. destruct a as [x|], b as [y|]; cbn [not_afterb].
  - rewrite Z.leb_le. split.
    + intros H ? ? [= <-] [= <-]. exact H.
    + intros H. apply H; reflexivity.
  - split; [intros _ ? ? _ [=]|reflexivity].
  - split; [intros _ ? ? [=]|reflexivity].
  - split; [intros _ ? ? [=]|reflexivity].
Qed.

Lemma rising_sorted l : rising l = true <-> StronglySorted not_after l.
Proof.
  induction l as [|a l IH]; cbn [rising].
  - split; [constructor|reflexivity].
  - rewrite andb_true_iff, IH, List.forallb_forall. split.
    + intros [Ha Hl]. constructor; [exact Hl|].
      apply List.Forall_forall. intros b Hb. apply not_afterb_spec.
      apply Ha. exact Hb.
    + intros H. apply StronglySorted_inv in H. destruct H as [Hl Ha].
      split; [|exact Hl]. intros b Hb. apply not_afterb_spec.
      rewrite List.Forall_forall in Ha. apply Ha. exact Hb.
Qed.

(** In a tree in source order the slots are in order along [preorder]. *)
Lemma slots_sorted tree :
  StronglySorted not_after (events tree) ->
  StronglySorted not_after (flat_map slots (preorder tree)).
Proof.
  induction tree as [n IH] using Node_children_ind. intros Hn.
  rewrite slots_of_preorder. rewrite events_unfold in Hn.
  apply StronglySorted_inv in Hn. destruct Hn as [Htail Hstart].
  apply sorted_app in Htail. destruct Htail as (Hcs & _ & Hend).
  rewrite List.Forall_forall in Hstart.
  assert (Hinner : StronglySorted not_after
                     (flat_map (fun c => flat_map slots (preorder c))
                        (children n))).
  { clear Hstart Hend. induction IH as [|c cs Hc _ IHcs]; [constructor|].
    cbn [flat_map] in *. apply sorted_app in Hcs.
    destruct Hcs as (H1 & H2 & Hcross). apply sorted_app.
    split; [apply Hc; exact H1|]. split; [apply IHcs; exact H2|].
    intros x y Hx Hy. apply Hcross.
    - apply preorder_slots_in_events. exact Hx.
    - apply children_slots_in_events. exact Hy. }
  unfold slots at 1. cbn [app].
  constructor; [constructor; [exact Hinner|]|].
  - apply List.Forall_forall. intros y Hy.
    apply children_slots_in_events in Hy.
    destruct (children n) as [|c cs]; [destruct Hy|].
    cbn [flat_map] in Hy, Hcs. rewrite events_unfold in Hy, Hcs.
    cbn [app] in Hy, Hcs.
    exact (sorted_head _ _ Hcs y Hy).
  - apply List.Forall_forall. intros y Hy. apply Hstart.
    apply List.in_or_app. destruct Hy as [<-|Hy].
    + destruct (children n) as [|c cs]; cbn [flat_map].
      * right. left. reflexivity.
      * left. apply List.in_or_app. left. rewrite events_unfold. left.
        reflexivity.
    + left. apply children_slots_in_events. exact Hy.
Qed.

Lemma slots_sorted_filter (keep : Node -> bool) (l : list Node) :
  StronglySorted not_after (flat_map slots l) ->
  StronglySorted not_after (flat_map slots (List.filter keep l)).
Proof.
  induction l as [|n l IH]; cbn [flat_map List.filter]; [constructor|].
  intros H. apply sorted_app in H. destruct H as (H1 & H2 & Hcross).
  destruct (keep n); [|apply IH; exact H2].
  cbn [flat_map]. apply sorted_app. split; [exact H1|].
  split; [apply IH; exact H2|].
  intros x y Hx Hy. apply Hcross; [exact Hx|].
  apply List.in_flat_map in Hy. destruct Hy as (c & Hc & Hy).
  apply List.in_flat_map. exists c. split; [|exact Hy].
  apply List.filter_In in Hc. tauto.
Qed.

Lemma not_after_none_l b : not_after None b.
Proof. intros x y [=]. Qed.
Lemma not_after_none_r a : not_after a None.
Proof. intros x y _ [=]. Qed.

Lemma visit_list_in_order {S} (visitor : Node -> S -> Lint S) :
  (forall n s, (length (messages_of (visitor n s)) <= 1)%nat) ->
  (forall n s, Forall (starts_at (slots n)) (messages_of (visitor n s))) ->
  forall ns s,
    StronglySorted not_after (flat_map slots ns) ->
    StronglySorted no_later (messages_of (visit_list visitor ns s))
    /\ Forall (starts_at (flat_map slots ns))
         (messages_of (visit_list visitor ns s)).
Proof.
  intros Hone Hat ns. induction ns as [|n ns IH]; intros s Hsorted.
  - split; constructor.
  - cbn [flat_map] in Hsorted. apply sorted_app in Hsorted.
    destruct Hsorted as (_ & Hrest & Hcross).
    cbn [visit_list]. rewrite messages_of_bind_app.
    set (later := match visitor n s with
                  | Done a _ => messages_of (visit_list visitor ns a)
                  | Thrown _ => []
                  end).
    assert (Hlater : StronglySorted no_later later
                     /\ Forall (starts_at (flat_map slots ns)) later).
    { subst later. destruct (visitor n s); [apply IH; exact Hrest|].
      split; constructor. }
    destruct Hlater as [Hl1 Hl2].
    specialize (Hone n s). specialize (Hat n s).
    split.
    + apply sorted_app. split; [|split; [exact Hl1|]].
      * destruct (messages_of (visitor n s)) as [|m [|m' ms]];
          [constructor|repeat constructor|cbn in Hone; lia].
      * intros a b Ha Hb. rewrite List.Forall_forall in Hat, Hl2.
        unfold no_later.
        destruct (Hat a Ha) as [E|Hka]; [rewrite E; apply not_after_none_l|].
        destruct (Hl2 b Hb) as [E|Hkb]; [rewrite E; apply not_after_none_r|].
        apply Hcross; assumption.
    + apply Forall_app. split.
      * eapply List.Forall_impl; [|exact Hat]. intros m [E|Hm];
          [left; exact E|right]. cbn [flat_map]. apply List.in_or_app.
        left. exact Hm.
      * eapply List.Forall_impl; [|exact Hl2]. intros m [E|Hm];
          [left; exact E|right]. cbn [flat_map]. apply List.in_or_app.
        right. exact Hm.
Qed.

Lemma clean_point_offset_cases p :
  offset (clean_point p) = None \/ offset (clean_point p) = (q ← p; offset q).
Proof.
  destruct p as [q|]; [|left; reflexivity]. cbn [clean_point offset mbind option_bind].
  destruct (offset q) as [o|]; [|left; reflexivity].
  destruct (-1 <? o); [right|left]; reflexivity.
Qed.

Lemma pointStart_offset_cases c :
  offset (pointStart (Some c)) = None
  \/ offset (pointStart (Some c)) = start_of c.
Proof.
  unfold pointStart, start_of. cbn [mbind option_bind].
  destruct (clean_point_offset_cases (p ← position c; start p)) as [E|E];
    [left; exact E|right]. rewrite E.
  destruct (position c) as [p|]; reflexivity.
Qed.

Lemma pointEnd_offset_cases c :
  offset (pointEnd (Some c)) = None
  \/ offset (pointEnd (Some c)) = end_of c.
Proof.
  unfold pointEnd, end_of. cbn [mbind option_bind].
  destruct (clean_point_offset_cases (p ← position c; end_ p)) as [E|E];
    [left; exact E|right]. rewrite E.
  destruct (position c) as [p|]; reflexivity.
Qed.

Lemma toPoint_from_offset_cases indices index previous o :
  offset (toPoint_from indices index previous o) = None
  \/ offset (toPoint_from indices index previous o) = o.
Proof.
  revert index previous.
  induction indices as [|x indices IH]; intros index previous;
    cbn [toPoint_from]; [left; reflexivity|].
  destruct (_ <? _); [right; reflexivity|apply IH].
Qed.

Lemma toPoint_offset_cases file o :
  offset (toPoint file o) = None \/ offset (toPoint file o) = o.
Proof.
  unfold toPoint. destruct (_ && _); [|left; reflexivity].
  apply toPoint_from_offset_cases.
Qed.

(** The offset of the point a rule measures the content from is that
    of the second slot, when it has one. *)
Lemma content_point_slot n :
  offset (content_point n) = None
  \/ In (offset (content_point n)) (slots n).
Proof.
  unfold content_point, slots.
  destruct (children n) as [|c cs]; cbn [length head].
  - change (Z.of_nat 0 =? 0) with true. cbv iota.
    destruct (pointEnd_offset_cases n) as [E|E]; [left; exact E|right].
    rewrite E. right. left. reflexivity.
  - destruct (Z.eqb_spec (Z.of_nat (S (length cs))) 0); [lia|].
    destruct (pointStart_offset_cases c) as [E|E]; [left; exact E|right].
    rewrite E. right. left. reflexivity.
Qed.

(** What a visitor reports on a node starts at a slot of the node, if
    it has a start offset. *)
Lemma visitors_report_at_slots file n :
  (forall s, Forall (starts_at (slots n))
               (messages_of (codeBlockStyle_visitor (contents file) n s)))
  /\ (forall s, Forall (starts_at (slots n))
                  (messages_of (blockquoteIndentation_visitor n s)))
  /\ (forall p s, Forall (starts_at (slots n))
                    (messages_of (maximumHeadingLength_visitor p n s)))
  /\ (forall s, Forall (starts_at (slots n))
                  (messages_of (noDuplicateHeadings_visitor n s)))
  /\ (forall s, Forall (starts_at (slots n))
                  (messages_of (checkboxContentIndent_visitor file n s))).
Proof.
  assert (Hnode : forall text,
             starts_at (slots n) (mkMessage text (AtNode n) false)).
  { intros text. right. left. reflexivity. }
  repeat split; intros.
  - unfold codeBlockStyle_visitor. destruct (generated n);
      [apply messages_of_ret|].
    destruct (truthy_string s); [|apply messages_of_ret].
    apply messages_of_bind; [|intros; apply messages_of_ret].
    destruct (differs _ _); [|apply messages_of_ret].
    apply messages_of_message. apply Hnode.
  - unfold blockquoteIndentation_visitor.
    destruct (generated n); cbn [orb]; [apply messages_of_ret|].
    destruct (Z.of_nat (length (children n)) =? 0) eqn:E;
      [apply messages_of_ret|].
    destruct (truthy s); [|apply messages_of_ret].
    apply messages_of_bind; [|intros; apply messages_of_ret].
    destruct (is_not_zero _); [|apply messages_of_ret].
    apply messages_of_message. unfold starts_at. cbn [start_offset place].
    pose proof (content_point_slot n) as H. unfold content_point in H.
    rewrite E in H. exact H.
  - unfold maximumHeadingLength_visitor. destruct (generated n);
      [apply messages_of_ret|]. cbn [negb andb].
    destruct (exceeds _ _); [|apply messages_of_ret].
    apply messages_of_message. apply Hnode.
  - unfold noDuplicateHeadings_visitor. destruct (generated n);
      [apply messages_of_ret|]. cbn [negb].
    apply messages_of_bind; [|intros; apply messages_of_ret].
    destruct (s !! _); [|apply messages_of_ret].
    apply messages_of_message. apply Hnode.
  - unfold checkboxContentIndent_visitor. destruct (_ || _);
      [apply messages_of_ret|]. cbv zeta.
    destruct (negb _); [apply messages_of_ret|].
    destruct (_ <? _); [|apply messages_of_ret].
    apply messages_of_message. unfold starts_at. cbn [start_offset place].
    fold (content_point n).
    destruct (toPoint_offset_cases file (offset (content_point n)))
      as [E|E]; [left; exact E|].
    rewrite E. apply content_point_slot.
Qed.

Lemma visitors_report_one file :
  (forall n s,
      (length (messages_of (codeBlockStyle_visitor (contents file) n s))
       <= 1)%nat)
  /\ (forall n s,
         (length (messages_of (blockquoteIndentation_visitor n s)) <= 1)%nat)
  /\ (forall p n s,
         (length (messages_of (maximumHeadingLength_visitor p n s))
          <= 1)%nat)
  /\ (forall n s,
         (length (messages_of (noDuplicateHeadings_visitor n s)) <= 1)%nat)
  /\ (forall n s,
         (length (messages_of (checkboxContentIndent_visitor file n s))
          <= 1)%nat).
Proof.
  destruct (visitors_report_once file) as (Hc & Hb & Hm & Hd & Hx).
  repeat split; intros.
  - specialize (Hc n s). destruct (not_generated n); lia.
  - specialize (Hb n s). destruct (not_generated n); lia.
  - specialize (Hm p n s). destruct (not_generated n); lia.
  - specialize (Hd n s). destruct (not_generated n); lia.
  - specialize (Hx n s). destruct (not_generated n); lia.
Qed.





(** C8.  The diagnostics of one run of a rule are in rising order of
    their start offset: of two diagnostics, the one appended first does
    not start after the other in the source.  This is so on every tree
    in source order, where the offsets met on a walk through the tree
    never fall, as in a parsed document; nodes without a position may
    sit anywhere in it. *)
Theorem diagnostics_in_source_order :
  forall rule tree file option_,
    in_source_order tree = true ->
    StronglySorted no_later (messages_of (lint rule tree file option_)).
Proof.
  intros rule tree file option_ Horder. apply rising_sorted in Horder.
  pose proof (slots_sorted_filter (has_kind (kind_of rule)) _
                (slots_sorted tree Horder)) as Hsorted.
  fold (visited tree (kind_of rule)) in Hsorted.
  destruct (visitors_report_one file) as (Hc & Hb & Hm & Hd & Hx).
  rewrite lint_unfold. destruct rule; cbv zeta; cbn [kind_of] in Hsorted.
  - destruct (negb (is_true_at styles _)).
    + repeat constructor.
    + rewrite bind_ret_l, messages_of_then_ret.
      apply visit_list_in_order; [exact Hc| |exact Hsorted].
      intros n s. apply (visitors_report_at_slots file n).
  - rewrite messages_of_then_ret.
    apply visit_list_in_order; [exact Hb| |exact Hsorted].
    intros n s. apply (visitors_report_at_slots file n).
  - apply visit_list_in_order; [apply Hm| |exact Hsorted].
    intros n s. apply (visitors_report_at_slots file n).
  - rewrite messages_of_then_ret.
    apply visit_list_in_order; [exact Hd| |exact Hsorted].
    intros n s. apply (visitors_report_at_slots file n).
  - apply visit_list_in_order; [exact Hx| |exact Hsorted].
    intros n s. apply (visitors_report_at_slots file n).
Qed.

Lemma diagnostics_in_source_order_witness :
  StronglySorted no_later
    (messages_of
       (lint NoDuplicateHeadings Sample.inserted_heading_doc
          Sample.heading_file Absent)).
Proof.
  apply diagnostics_in_source_order. vm_compute. reflexivity.
Defined.

(** The documents a transform has put nodes in are in source order,
    though not every node of them has offsets. *)
Example inserted_nodes_keep_source_order :
  in_source_order Sample.inserted_doc = true
  /\ in_document_order Sample.inserted_doc = false
  /\ in_source_order Sample.inserted_heading_doc = true
  /\ lint NoDuplicateHeadings Sample.inserted_heading_doc
       Sample.heading_file Absent
     = Done tt
         [mkMessage "Do not use headings with similar content (1:1)"
            (AtNode Sample.foo2) false;
          mkMessage "Do not use headings with similar content (3:1)"
            (AtNode Sample.foo3) false].
Proof. repeat split; vm_compute; reflexivity. Qed.


